(** * A CUDA field deinterlacer for VapourSynth: model and verification

    Shallow embedding of [cuda_deint_precise.cu]: the per-pixel device
    kernel [deintKernel], its host wrapper [runDeintKernel], the frame
    callback [cudaDeintGetFrame] and the constructor [cudaDeintCreate].

    Conventions.
    - A C [int] is a [Z]; signed arithmetic that leaves the 32-bit range is
      undefined in C++ and is modelled as the fault [IntOverflow].
      Conversions between integer types are modular and written out
      ([to_int], [to_uint], [to_size_t], [to_uint8]).
    - A pixel buffer is a [list Z] of bytes, indexed by a [size_t] offset;
      an access outside the buffer is the fault [OutOfBounds].
    - Device code runs in the monad [Dev], which threads the destination
      buffer and the log of every offset read or written. *)

From Stdlib Require Import ZArith Lia Bool.
From stdpp Require Import base numbers list strings gmap.

Local Open Scope Z_scope.

(** ** Machine integers *)

Module MachInt.

Definition INT_MIN : Z := - 2 ^ 31.
Definition INT_MAX : Z := 2 ^ 31 - 1.
Definition INT64_MIN : Z := - 2 ^ 63.
Definition INT64_MAX : Z := 2 ^ 63 - 1.

Definition in_int (z : Z) : bool := (INT_MIN <=? z) && (z <=? INT_MAX).
Definition in_int64 (z : Z) : bool := (INT64_MIN <=? z) && (z <=? INT64_MAX).

(** Modular conversions. *)
Definition to_int (z : Z) : Z := (z + 2 ^ 31) mod 2 ^ 32 - 2 ^ 31.
Definition to_uint (z : Z) : Z := z mod 2 ^ 32.
Definition to_size_t (z : Z) : Z := z mod 2 ^ 64.
Definition to_uint8 (z : Z) : Z := z mod 2 ^ 8.

End MachInt.
Export MachInt.

(** ** Faults and the result type *)

Inductive Fault : Type :=
| OutOfBounds   (* an access outside a buffer *)
| IntOverflow   (* signed arithmetic outside the type's range *)
| DivByZero
| NullPointer   (* a null pointer handed to the host API *)
| OutOfFuel.    (* a loop of the model ran out of fuel *)

Inductive Result (A : Type) : Type :=
| Ok (a : A)
| Err (f : Fault).
Arguments Ok {A} a.
Arguments Err {A} f.

#[global] Instance Result_ret : MRet Result := fun A a => Ok a.
#[global] Instance Result_bind : MBind Result := fun A B k m =>
  match m with
  | Ok a => k a
  | Err f => Err f
  end.

#[global] Instance Result_fmap : FMap Result := fun A B f m =>
  match m with
  | Ok a => Ok (f a)
  | Err e => Err e
  end.

(** Checked signed arithmetic on [int] and [int64_t]. *)
Definition checked (z : Z) : Result Z :=
  if in_int z then Ok z else Err IntOverflow.
Definition checked64 (z : Z) : Result Z :=
  if in_int64 z then Ok z else Err IntOverflow.

Definition int_add (a b : Z) : Result Z := checked (a + b).
Definition int_sub (a b : Z) : Result Z := checked (a - b).
Definition int_mul (a b : Z) : Result Z := checked (a * b).
Definition int_div (a b : Z) : Result Z :=
  if b =? 0 then Err DivByZero else checked (Z.quot a b).
Definition int64_mul (a b : Z) : Result Z := checked64 (a * b).

(** ** Device memory and the device monad *)

Inductive Access : Type :=
| Rd (off : Z)   (* a read of the source buffer *)
| Wr (off : Z).  (* a write of the destination buffer *)

Definition access_off (a : Access) : Z :=
  match a with Rd o => o | Wr o => o end.

Record DevState : Type := mkDev {
  dev_dst : list Z;       (* the destination buffer *)
  dev_log : list Access;  (* every access so far, oldest first *)
}.

Definition Dev (A : Type) : Type := DevState -> Result (A * DevState).

#[global] Instance Dev_ret : MRet Dev := fun A a st => Ok (a, st).
#[global] Instance Dev_bind : MBind Dev := fun A B k m st =>
  match m st with
  | Ok (a, st') => k a st'
  | Err f => Err f
  end.

(** A pure fallible computation inside device code. *)
Definition lift {A : Type} (r : Result A) : Dev A := fun st =>
  match r with
  | Ok a => Ok (a, st)
  | Err f => Err f
  end.

(** [src[off]]: the source buffer is read-only. *)
Definition load (src : list Z) (off : Z) : Dev Z := fun st =>
  match src !! Z.to_nat off with
  | Some v => Ok (v, mkDev (dev_dst st) (dev_log st ++ [Rd off]))
  | None => Err OutOfBounds
  end.

(** [dst[off] = v] for a [uint8_t] value [v]. *)
Definition store (off : Z) (v : Z) : Dev unit := fun st =>
  if (Z.to_nat off <? length (dev_dst st))%nat
  then Ok (tt, mkDev (<[Z.to_nat off := v]> (dev_dst st)) (dev_log st ++ [Wr off]))
  else Err OutOfBounds.

(** The offset [row * stride + x], computed in [size_t]: [row] and [x] are
    [int]s converted to [size_t], [stride] is a [size_t]. *)
Definition offset (row stride x : Z) : Z :=
  to_size_t (to_size_t (to_size_t row * stride) + to_size_t x).

(** CUDA's [dim3]; the [z] component is not used by this program. *)
Record dim3 : Type := mkDim3 { dim_x : Z; dim_y : Z }.

(** ** The kernel: one thread, one pixel *)

Section Kernel.

Variable src : list Z.
Variables w h : Z.          (* int *)
Variable stride : Z.        (* size_t *)
Variables useTop isChroma : Z.  (* int, used as flags *)

(** The luma loop [for (int dy = -3; dy <= 3; dy += 2)], carrying [sum] and
    [weight]. *)
Fixpoint lumaLoop (fuel : nat) (x y dy sum weight : Z) : Dev (Z * Z) :=
  match fuel with
  | O => lift (Err OutOfFuel)
  | S fuel' =>
    if dy <=? 3 then
      yy ← lift (int_add y dy);
      let yy := if yy <? 0 then 0 else yy in
      yy ← (if yy >=? h then lift (int_sub h 1) else mret yy);
      let wgt := if Z.abs dy =? 1 then 4 else 1 in
      v ← load src (offset yy stride x);
      p ← lift (int_mul v wgt);
      sum ← lift (int_add sum p);
      weight ← lift (int_add weight wgt);
      dy ← lift (int_add dy 2);
      lumaLoop fuel' x y dy sum weight
    else mret (sum, weight)
  end.

(** [bool missing = (useTop ? (y % 2 == 1) : (y % 2 == 0))]. *)
Definition missing (y : Z) : bool :=
  if negb (useTop =? 0) then Z.rem y 2 =? 1 else Z.rem y 2 =? 0.

(** The body of [deintKernel] once [x] and [y] are known. *)
Definition deintPixel (x y : Z) : Dev unit :=
  if (x >=? w) || (y >=? h) then mret tt
  else
    if negb (missing y) then
      v ← load src (offset y stride x);
      store (offset y stride x) v
    else if isChroma =? 0 then
      '(sum, weight) ← lumaLoop 5 x y (-3) 0 0;
      half ← lift (int_div weight 2);
      s ← lift (int_add sum half);
      q ← lift (int_div s weight);
      store (offset y stride x) (to_uint8 q)
    else
      y0 ← (if y >? 0 then lift (int_sub y 1) else mret 0);
      yp ← lift (int_add y 1);
      y1 ← (if yp <? h then mret yp else lift (int_sub h 1));
      v0 ← load src (offset y0 stride x);
      v1 ← load src (offset y1 stride x);
      s ← lift (int_add v0 v1);
      s ← lift (int_add s 1);
      q ← lift (int_div s 2);
      store (offset y stride x) (to_uint8 q).

(** [deintKernel]: the thread derives its pixel from its block and thread
    indices ([unsigned int] arithmetic, converted to [int]). *)
Definition deintKernel (blockIdx blockDim threadIdx : dim3) : Dev unit :=
  let x := to_int (to_uint (to_uint (dim_x blockIdx * dim_x blockDim)
                            + dim_x threadIdx)) in
  let y := to_int (to_uint (to_uint (dim_y blockIdx * dim_y blockDim)
                            + dim_y threadIdx)) in
  deintPixel x y.

End Kernel.

(** ** Kernel launch *)

(** The threads of a launch [<<<blocks, threads>>>], as pairs of a block
    index and a thread index. *)
Definition grid_threads (blocks threads : dim3) : list (dim3 * dim3) :=
  by_ ← seqZ 0 (dim_y blocks);
  bx ← seqZ 0 (dim_x blocks);
  ty ← seqZ 0 (dim_y threads);
  tx ← seqZ 0 (dim_x threads);
  [(mkDim3 bx by_, mkDim3 tx ty)].

(** Threads run one after the other in the order of the schedule. *)
Fixpoint run_threads (k : dim3 -> dim3 -> Dev unit)
    (sched : list (dim3 * dim3)) : Dev unit :=
  match sched with
  | [] => mret tt
  | (b, t) :: sched' => _ ← k b t; run_threads k sched'
  end.

Definition launch (blocks threads : dim3)
    (k : dim3 -> dim3 -> dim3 -> Dev unit) : Dev unit :=
  run_threads (fun b t => k b threads t) (grid_threads blocks threads).

(** ** The host wrapper *)

(** [cudaMemcpy(dst, src, n, ...)]: the first [n] bytes of [dst] are
    replaced by the first [n] bytes of [src]. *)
Definition cudaMemcpy (dst src : list Z) (n : Z) : Result (list Z) :=
  if (Z.to_nat n <=? length src)%nat && (Z.to_nat n <=? length dst)%nat
  then Ok (take (Z.to_nat n) src ++ drop (Z.to_nat n) dst)
  else Err OutOfBounds.

Section Host.

(** What a device memory cell holds before it is first written. *)
Variable stale : nat -> Z.

(** [cudaMalloc(&p, n)]: [n] bytes of uninitialised device memory. The
    source does not check the call's status; the model has it succeed. *)
Definition cudaMalloc (n : Z) : list Z := stale <$> seq 0 (Z.to_nat n).

(** [runDeintKernel]: returns the host destination buffer after the copy
    back, with the access log of the kernel. *)
Definition runDeintKernel (sp dp : list Z) (w h stride : Z)
    (useTop isChroma : Z) : Result (list Z * list Access) :=
  let frame_size := to_size_t (to_size_t stride * to_size_t h) in
  let d_src := cudaMalloc frame_size in
  let d_dst := cudaMalloc frame_size in
  d_src ← cudaMemcpy d_src sp frame_size;
  let threads := mkDim3 16 16 in
  w15 ← int_add w 15;
  gx ← int_div w15 16;
  h15 ← int_add h 15;
  gy ← int_div h15 16;
  let blocks := mkDim3 (to_uint gx) (to_uint gy) in
  '(_, st) ← launch blocks threads
                (deintKernel d_src w h (to_size_t stride) useTop isChroma)
                (mkDev d_dst []);
  dp' ← cudaMemcpy dp (dev_dst st) frame_size;
  mret (dp', dev_log st).

End Host.

(** ** VapourSynth data *)

Record VSVideoFormat : Type := mkFormat {
  numPlanes : Z;
}.

Record VSVideoInfo : Type := mkVideoInfo {
  format : VSVideoFormat;
  fpsNum : Z;      (* int64_t *)
  fpsDen : Z;      (* int64_t *)
  width : Z;       (* int *)
  height : Z;      (* int *)
  numFrames : Z;   (* int *)
}.

(** One plane of a frame: its geometry and its bytes. *)
Record VSPlane : Type := mkPlane {
  p_width : Z;
  p_height : Z;
  p_stride : Z;    (* ptrdiff_t *)
  p_data : list Z;
}.

Definition VSFrame : Type := list VSPlane.

(** The upstream clip: its descriptor and the frame it yields at an index. *)
Record VSNode : Type := mkNode {
  node_vi : VSVideoInfo;
  node_frame : Z -> VSFrame;
}.

(** [CudaDeintData]. *)
Record CudaDeintData : Type := mkData {
  node : VSNode;
  vi : VSVideoInfo;
  tff : Z;    (* 1 = Top field first, 0 = Bottom field first *)
  mode : Z;   (* 0 = double-rate (bob), 1 = single-rate *)
}.

Inductive VSActivationReason : Type :=
| arError
| arInitial
| arAllFramesReady.

(** Calls into the host API that the frame callback makes. *)
Inductive HostCall : Type :=
| requestFrameFilter (n : Z)
| getFrameFilter (n : Z)
| newVideoFrame (fmt : VSVideoFormat) (width height : Z)
| freeFrame (n : Z).

(** ** The frame callback *)

Definition getPlane (f : VSFrame) (plane : Z) : Result VSPlane :=
  if plane <? 0 then Err OutOfBounds
  else match f !! Z.to_nat plane with
       | Some p => Ok p
       | None => Err OutOfBounds
       end.

Definition setPlaneData (p : VSPlane) (data : list Z) : VSPlane :=
  mkPlane (p_width p) (p_height p) (p_stride p) data.

(** [int srcN = (d->mode == 0) ? n / 2 : n]. *)
Definition srcN (d : CudaDeintData) (n : Z) : Result Z :=
  if mode d =? 0 then int_div n 2 else mret n.

(** [bool useTop = (d->mode == 0) ? ((n % 2 == 0) == (d->tff == 1))
                                  : (d->tff == 1)]. *)
Definition useTop (d : CudaDeintData) (n : Z) : bool :=
  if mode d =? 0
  then Bool.eqb (Z.rem n 2 =? 0) (tff d =? 1)
  else tff d =? 1.

Section GetFrame.

Variable stale : nat -> Z.

(** The frame the host allocates for [newVideoFrame(format, width, height,
    propSrc, core)]. *)
Variable allocFrame : VSVideoFormat -> Z -> Z -> VSFrame -> VSFrame.

(** The loop over the planes, from [plane] on; [planes] lists the indices
    still to do. *)
Fixpoint processPlanes (src : VSFrame) (useTop : bool) (planes : list Z)
    (dst : VSFrame) : Result VSFrame :=
  match planes with
  | [] => Ok dst
  | plane :: planes' =>
    s ← getPlane src plane;
    let w := p_width s in
    let h := p_height s in
    let stride := to_int (p_stride s) in
    let sp := p_data s in
    t ← getPlane dst plane;
    let dp := p_data t in
    '(dp', _) ← runDeintKernel stale sp dp w h stride
                   (Z.b2z useTop) (Z.b2z (plane >? 0));
    processPlanes src useTop planes'
      (<[Z.to_nat plane := setPlaneData t dp']> dst)
  end.

(** [cudaDeintGetFrame]: the instance data after the call, the host calls
    made, and the frame returned ([None] for [nullptr]). *)
Definition cudaDeintGetFrame (n : Z) (activationReason : VSActivationReason)
    (d : CudaDeintData)
    : Result (CudaDeintData * list HostCall * option VSFrame) :=
  match activationReason with
  | arInitial =>
    srcN ← srcN d n;
    Ok (d, [requestFrameFilter srcN], None)
  | arAllFramesReady =>
    srcN ← srcN d n;
    let src := node_frame (node d) srcN in
    let dst := allocFrame (format (vi d)) (width (vi d)) (height (vi d)) src in
    let useTop := useTop d n in
    dst ← processPlanes src useTop (seqZ 0 (numPlanes (format (vi d)))) dst;
    Ok (d, [getFrameFilter srcN;
            newVideoFrame (format (vi d)) (width (vi d)) (height (vi d));
            freeFrame srcN], Some dst)
  | arError => Ok (d, [], None)
  end.

End GetFrame.

(** ** The constructor *)

Inductive VSValue : Type :=
| vNode (n : VSNode)
| vInt (i : Z)       (* int64_t *)
| vData (s : string).

(** A [VSMap]: every key holds an array of values. *)
Abbreviation VSMap := (gmap string (list VSValue)).

(** Error codes of the map accessors ([VSMapPropertyError]). *)
Definition peSuccess : Z := 0.
Definition peUnset : Z := 1.
Definition peType : Z := 2.
Definition peIndex : Z := 4.

(** [mapGetNode(in, key, index, &err)]: the node, or [None] for [NULL],
    with the value left in [err]. *)
Definition mapGetNode (m : VSMap) (key : string) (index : Z)
    : option VSNode * Z :=
  match m !! key with
  | None => (None, peUnset)
  | Some vs =>
    if index <? 0 then (None, peIndex)
    else match vs !! Z.to_nat index with
         | None => (None, peIndex)
         | Some (vNode n) => (Some n, peSuccess)
         | Some _ => (None, peType)
         end
  end.

(** [mapGetInt(in, key, index, &err)]: the integer, or 0, with the value
    left in [err]. *)
Definition mapGetInt (m : VSMap) (key : string) (index : Z) : Z * Z :=
  match m !! key with
  | None => (0, peUnset)
  | Some vs =>
    if index <? 0 then (0, peIndex)
    else match vs !! Z.to_nat index with
         | None => (0, peIndex)
         | Some (vInt i) => (i, peSuccess)
         | Some _ => (0, peType)
         end
  end.

Inductive VSFilterMode : Type := fmParallel | fmParallelRequests | fmUnordered | fmFrameState.
Inductive VSRequestPattern : Type := rpGeneral | rpNoFrameReuse | rpStrictSpatial.

(** What the constructor leaves in [out]: an error set by [mapSetError], or
    the filter made by [createVideoFilter]. *)
Inductive VSOut : Type :=
| outError (msg : string)
| outFilter (name : string) (vi : VSVideoInfo) (filterMode : VSFilterMode)
    (deps : list (VSNode * VSRequestPattern)) (d : CudaDeintData).

(** [cudaDeintCreate]. *)
Definition cudaDeintCreate (in_ : VSMap) : Result VSOut :=
  let '(node, err) := mapGetNode in_ "clip" 0 in
  if negb (err =? 0) then
    Ok (outError "CudaDeinterlacer: clip is required.")
  else
    match node with
    | None => Err NullPointer
    | Some node =>
      let vi := node_vi node in
      let '(v, err) := mapGetInt in_ "tff" 0 in
      let tff := to_int v in
      let tff := if negb (err =? 0) then 1 else tff in
      let '(v, err) := mapGetInt in_ "mode" 0 in
      let mode := to_int v in
      let mode := if negb (err =? 0) then 0 else mode in
      vi ← (if mode =? 0 then
              fps ← int64_mul (fpsNum vi) 2;
              frames ← int_mul (numFrames vi) 2;
              mret (mkVideoInfo (format vi) fps (fpsDen vi) (width vi)
                      (height vi) frames)
            else mret vi);
      Ok (outFilter "CudaDeinterlacer" vi fmParallel [(node, rpGeneral)]
            (mkData node vi tff mode))
    end.

(** ** Reference formulas and well-formedness

    The formulas of the specification, against which the kernel is
    compared, and the conditions under which a plane is well formed. *)

Section Reference.

Variable src : list Z.
Variables h stride : Z.

(** The sample at row [row] and column [x] of the plane stored in [src]. *)
Definition sample (row x : Z) : Z :=
  default 0 (src !! Z.to_nat (row * stride + x)).

(** A row index clamped to [[0, h-1]]. *)
Definition clamp_row (r : Z) : Z := Z.max 0 (Z.min r (h - 1)).

(** The weighted sum over the offsets -3, -1, +1, +3. *)
Definition spec_luma_sum (x y : Z) : Z :=
  4 * sample (clamp_row (y - 1)) x + 4 * sample (clamp_row (y + 1)) x
  + sample (clamp_row (y - 3)) x + sample (clamp_row (y + 3)) x.

Definition spec_luma (x y : Z) : Z := (spec_luma_sum x y + 5) / 10.

Definition spec_chroma (x y : Z) : Z :=
  (sample (Z.max (y - 1) 0) x + sample (Z.min (y + 1) (h - 1)) x + 1) / 2.

(** The value the specification gives to the pixel at [(x, y)]. *)
Definition spec_pixel (useTop isChroma : Z) (x y : Z) : Z :=
  if missing useTop y then
    if isChroma =? 0 then spec_luma x y else spec_chroma x y
  else sample y x.

End Reference.

Definition is_byte (b : Z) : Prop := 0 <= b <= 255.

(** A plane of [w] by [h] samples with row stride [stride], held in the
    first [stride * h] cells of a buffer of bytes; the dimensions leave
    room for the grid computation [(w + 15) / 16] in [int]. *)
Record plane_ok (buf : list Z) (w h stride : Z) : Prop := mkPlaneOk {
  ok_w : 0 < w <= stride;
  ok_h : 0 < h;
  ok_stride : stride <= INT_MAX;
  ok_wmax : w + 15 <= INT_MAX;
  ok_hmax : h + 15 <= INT_MAX;
  ok_len : (Z.to_nat (stride * h) <= length buf)%nat;
  ok_bytes : Forall is_byte buf;
}.

(** An access that stays inside a plane buffer of [stride * h] bytes. *)
Definition in_plane (h stride : Z) (a : Access) : Prop :=
  0 <= access_off a < stride * h.

(** The thread of a launch with 16 by 16 blocks that handles the pixel
    [(x, y)]. *)
Definition thread_of_pixel (x y : Z) : dim3 * dim3 :=
  (mkDim3 (x / 16) (y / 16), mkDim3 (x mod 16) (y mod 16)).

(** Indices of a thread in 16 by 16 blocks whose pixel coordinates fit in
    an [int]. *)
Definition thread_ok (bt : dim3 * dim3) : Prop :=
  let '(b, t) := bt in
  (0 <= dim_x b /\ 0 <= dim_x t < 16 /\ dim_x b * 16 + dim_x t <= INT_MAX)
  /\ (0 <= dim_y b /\ 0 <= dim_y t < 16 /\ dim_y b * 16 + dim_y t <= INT_MAX).

(** Plane [p] of the source frame is well formed and plane [p] of the
    destination frame has room for it. *)
Definition plane_ready (src dst : VSFrame) (p : Z) : Prop :=
  exists s t,
    src !! Z.to_nat p = Some s /\ dst !! Z.to_nat p = Some t
    /\ plane_ok (p_data s) (p_width s) (p_height s) (p_stride s)
    /\ (Z.to_nat (p_stride s * p_height s) <= length (p_data t))%nat.

(** Plane [p] of the destination frame holds the specified value at every
    pixel; plane 0 is luma, the others are chroma. *)
Definition plane_done (src dst : VSFrame) (top : bool) (p : Z) : Prop :=
  exists s t,
    src !! Z.to_nat p = Some s /\ dst !! Z.to_nat p = Some t
    /\ forall x y, 0 <= x < p_width s -> 0 <= y < p_height s ->
       p_data t !! Z.to_nat (y * p_stride s + x)
       = Some (spec_pixel (p_data s) (p_height s) (p_stride s)
                 (Z.b2z top) (Z.b2z (p >? 0)) x y).

(** The offsets written, in order, among the accesses of a log. *)
Definition writes (log : list Access) : list Z :=
  omap (fun a => match a with Wr o => Some o | Rd _ => None end) log.

(** Plane [p] of [dst'] is plane [p] of [dst] with its bytes replaced: the
    geometry and the size of the buffer are kept, and every pixel holds the
    specified value, by the luma formula in plane 0 and the chroma formula
    in the others. *)
Definition plane_rebuilt (src dst dst' : VSFrame) (top : bool) (p : Z)
    : Prop :=
  exists s t t',
    src !! Z.to_nat p = Some s /\ dst !! Z.to_nat p = Some t
    /\ dst' !! Z.to_nat p = Some t'
    /\ p_width t' = p_width t /\ p_height t' = p_height t
    /\ p_stride t' = p_stride t
    /\ length (p_data t') = length (p_data t)
    /\ forall x y, 0 <= x < p_width s -> 0 <= y < p_height s ->
       p_data t' !! Z.to_nat (y * p_stride s + x)
       = Some (spec_pixel (p_data s) (p_height s) (p_stride s)
                 (Z.b2z top) (if p =? 0 then 0 else 1) x y).

(** ** Example data *)

(** A 4 by 4 plane without padding; row [r] holds the value [10 * r]. *)
Definition plane44 : list Z :=
  [ 0;  0;  0;  0;
   10; 10; 10; 10;
   20; 20; 20; 20;
   30; 30; 30; 30].

(** A 3 by 4 plane with one byte of padding per row. *)
Definition plane34 : list Z :=
  [ 0;  8; 16; 255;
   40; 48; 56; 255;
   80; 88; 96; 255;
  120; 128; 136; 255].

(** A 3 by 4 plane with one byte of padding per row, whose columns are not
    linear in the row. *)
Definition plane34s : list Z :=
  [ 10; 200;  30; 0;
    90;  20; 250; 0;
    60; 100;  70; 0;
   255;  40;   5; 0].

(** A frame of three planes: luma, then two chroma planes with padding. *)
Definition frame3 : VSFrame :=
  [mkPlane 4 4 4 plane44; mkPlane 3 4 4 plane34; mkPlane 3 4 4 plane34].

(** An upstream clip of 100 frames at 24 fps with one 4 by 4 plane. *)
Definition clip100 : VSNode :=
  mkNode (mkVideoInfo (mkFormat 1) 24 1 4 4 100)
         (fun _ => [mkPlane 4 4 4 plane44]).

(** The host allocator used in the examples: a frame with the planes of the
    template, zero filled. *)
Definition zeroFrame (fmt : VSVideoFormat) (width height : Z)
    (template : VSFrame) : VSFrame :=
  (fun p => setPlaneData p (replicate (length (p_data p)) 0)) <$> template.

(** Arguments of the constructor: the clip alone; the clip with integers
    outside the documented ranges; no clip. *)
Definition args_clip_only : VSMap := {[ "clip" := [vNode clip100] ]}.

Definition args_out_of_range : VSMap :=
  <["clip" := [vNode clip100]]>
    (<["mode" := [vInt 5]]> {[ "tff" := [vInt 7] ]}).

Definition args_no_clip : VSMap := {[ "mode" := [vInt 1] ]}.

(** The instance configuration in the documented ranges. *)
Definition config_in_range (d : CudaDeintData) : Prop :=
  (mode d = 0 \/ mode d = 1) /\ (tff d = 0 \/ tff d = 1).

(** The instance with [mode] and [tff] replaced by the documented value
    that behaves alike. *)
Definition normalised (d : CudaDeintData) : CudaDeintData :=
  mkData (node d) (vi d)
         (if tff d =? 1 then 1 else 0)
         (if mode d =? 0 then 0 else 1).

(** * Verification *)

(** ** The model on concrete planes *)

(** Odd rows missing, luma: row 1 is rebuilt from rows 0, 0, 2, 3 and row 3
    from rows 0, 2, 3, 3. *)
Example kernel_plane44_odd_rows :
  fst <$> runDeintKernel (fun _ => 0) plane44 (replicate 16 0) 4 4 4 1 0
  = Ok [ 0;  0;  0;  0;
        11; 11; 11; 11;
        20; 20; 20; 20;
        23; 23; 23; 23].
Proof. reflexivity. Qed.

(** Even rows missing, luma: row 0 is rebuilt from rows 0, 0, 1, 3. *)
Example kernel_plane44_even_rows :
  fst <$> runDeintKernel (fun _ => 0) plane44 (replicate 16 0) 4 4 4 0 0
  = Ok [ 7;  7;  7;  7;
        10; 10; 10; 10;
        19; 19; 19; 19;
        30; 30; 30; 30].
Proof. reflexivity. Qed.

(** Chroma, with padding: the padding column of the destination receives
    what the device buffer held before the launch. *)
Example kernel_plane34_chroma :
  fst <$> runDeintKernel (fun _ => 77) plane34 (replicate 16 0) 3 4 4 1 1
  = Ok [ 0;   8;  16; 77;
        40;  48;  56; 77;
        80;  88;  96; 77;
       100; 108; 116; 77].
Proof. reflexivity. Qed.

(** The largest samples give the largest result, still a byte. *)
Example kernel_all_white :
  fst <$> runDeintKernel (fun _ => 0) (replicate 16 255) (replicate 16 0)
            4 4 4 1 0
  = Ok (replicate 16 255).
Proof. reflexivity. Qed.

(** The faults of the model are live: a width beyond the stride runs off
    the buffer, and samples that are not bytes overflow the accumulator. *)
Example kernel_width_beyond_stride :
  runDeintKernel (fun _ => 0) plane44 (replicate 16 0) 5 4 4 1 0
  = Err OutOfBounds.
Proof. reflexivity. Qed.

Example kernel_samples_not_bytes :
  runDeintKernel (fun _ => 0) (replicate 16 (2 ^ 30)) (replicate 16 0)
    4 4 4 1 0
  = Err IntOverflow.
Proof. reflexivity. Qed.

(** Construction and the two phases of a frame request. *)
Example create_doubles_rate :
  cudaDeintCreate args_clip_only
  = Ok (outFilter "CudaDeinterlacer" (mkVideoInfo (mkFormat 1) 48 1 4 4 200)
          fmParallel [(clip100, rpGeneral)]
          (mkData clip100 (mkVideoInfo (mkFormat 1) 48 1 4 4 200) 1 0)).
Proof. reflexivity. Qed.

Example create_without_clip :
  cudaDeintCreate args_no_clip
  = Ok (outError "CudaDeinterlacer: clip is required.").
Proof. reflexivity. Qed.

Example getFrame_double_rate_odd_output :
  let d := mkData clip100 (mkVideoInfo (mkFormat 1) 48 1 4 4 200) 1 0 in
  cudaDeintGetFrame (fun _ => 0) zeroFrame 5 arInitial d
  = Ok (d, [requestFrameFilter 2], None)
  /\ cudaDeintGetFrame (fun _ => 0) zeroFrame 5 arAllFramesReady d
     = Ok (d, [getFrameFilter 2; newVideoFrame (mkFormat 1) 4 4; freeFrame 2],
           Some [mkPlane 4 4 4 [ 7;  7;  7;  7;
                                10; 10; 10; 10;
                                19; 19; 19; 19;
                                30; 30; 30; 30]]).
Proof. split; reflexivity. Qed.

(** ** Machine integers *)

Lemma in_int_iff z : in_int z = true <-> INT_MIN <= z <= INT_MAX.
Proof. unfold in_int. rewrite andb_true_iff, !Z.leb_le. tauto. Qed.

Lemma in_int64_iff z : in_int64 z = true <-> INT64_MIN <= z <= INT64_MAX.
Proof. unfold in_int64. rewrite andb_true_iff, !Z.leb_le. tauto. Qed.

Lemma checked_ok z : INT_MIN <= z <= INT_MAX -> checked z = Ok z.
Proof. intros H. unfold checked. apply in_int_iff in H. now rewrite H. Qed.

Lemma checked64_ok z : INT64_MIN <= z <= INT64_MAX -> checked64 z = Ok z.
Proof. intros H. unfold checked64. apply in_int64_iff in H. now rewrite H. Qed.

Lemma INT_MAX_eq : INT_MAX = 2147483647.
Proof. reflexivity. Qed.

Lemma INT_MIN_eq : INT_MIN = -2147483648.
Proof. reflexivity. Qed.

Lemma to_size_t_small z : 0 <= z < 2 ^ 64 -> to_size_t z = z.
Proof. intros H. unfold to_size_t. now apply Z.mod_small. Qed.

Lemma to_uint_small z : 0 <= z < 2 ^ 32 -> to_uint z = z.
Proof. intros H. unfold to_uint. now apply Z.mod_small. Qed.

Lemma to_uint8_small z : 0 <= z <= 255 -> to_uint8 z = z.
Proof. intros H. unfold to_uint8. apply Z.mod_small. lia. Qed.

Lemma to_int_small z : INT_MIN <= z <= INT_MAX -> to_int z = z.
Proof.
  rewrite INT_MIN_eq, INT_MAX_eq. intros H. unfold to_int.
  rewrite Z.mod_small; lia.
Qed.

Lemma int_add_ok a b : INT_MIN <= a + b <= INT_MAX -> int_add a b = Ok (a + b).
Proof. apply checked_ok. Qed.

Lemma int_sub_ok a b : INT_MIN <= a - b <= INT_MAX -> int_sub a b = Ok (a - b).
Proof. apply checked_ok. Qed.

Lemma int_mul_ok a b : INT_MIN <= a * b <= INT_MAX -> int_mul a b = Ok (a * b).
Proof. apply checked_ok. Qed.

(** On non-negative operands C's truncating division is the floor. *)
Lemma int_div_ok a b :
  0 <= a <= INT_MAX -> 0 < b -> int_div a b = Ok (a / b).
Proof.
  rewrite INT_MAX_eq. intros Ha Hb. unfold int_div.
  destruct (Z.eqb_spec b 0) as [->|_]; [lia|].
  rewrite Z.quot_div_nonneg by lia.
  apply checked_ok. rewrite INT_MIN_eq, INT_MAX_eq.
  split.
  - pose proof (Z.div_pos a b). lia.
  - pose proof (Z.div_le_upper_bound a b 2147483647). nia.
Qed.

(** ** The device monad *)

Lemma dev_bind_ok {A B} (m : Dev A) (k : A -> Dev B) st a st' :
  m st = Ok (a, st') -> (m ≫= k) st = k a st'.
Proof. intros H. unfold mbind, Dev_bind. now rewrite H. Qed.

Lemma dev_bind_inv {A B} (m : Dev A) (k : A -> Dev B) st r :
  (m ≫= k) st = Ok r -> exists a st', m st = Ok (a, st') /\ k a st' = Ok r.
Proof.
  unfold mbind, Dev_bind. destruct (m st) as [[a st']|f]; [eauto|discriminate].
Qed.

Lemma lift_ok {A} (r : Result A) a st : r = Ok a -> lift r st = Ok (a, st).
Proof. now intros ->. Qed.

Lemma dev_ret_ok {A} (a : A) st : mret (M:=Dev) a st = Ok (a, st).
Proof. reflexivity. Qed.

(** ** One thread *)

Section PixelProofs.

Context (src : list Z) (w h stride : Z) (useTop isChroma : Z).
Hypothesis Hok : plane_ok src w h stride.

Lemma offset_in_plane row x :
  0 <= row < h -> 0 <= x < w ->
  offset row stride x = row * stride + x /\ 0 <= row * stride + x < stride * h.
Proof using Hok.
  intros Hr Hx. destruct Hok as [Hw Hh Hs _ Hhm _ _].
  rewrite INT_MAX_eq in Hs, Hhm.
  assert (row * stride <= (h - 1) * stride)
    by (apply Z.mul_le_mono_nonneg_r; lia).
  assert (0 <= row * stride) by (apply Z.mul_nonneg_nonneg; lia).
  assert (stride * h <= 2147483647 * 2147483647)
    by (apply Z.mul_le_mono_nonneg; lia).
  assert (0 <= row * stride + x < stride * h) by lia.
  split; [|assumption]. unfold offset.
  rewrite (to_size_t_small row) by lia.
  rewrite (to_size_t_small x) by lia.
  rewrite (to_size_t_small (row * stride)) by lia.
  apply to_size_t_small. lia.
Qed.

Lemma sample_lookup row x :
  0 <= row < h -> 0 <= x < w ->
  src !! Z.to_nat (row * stride + x) = Some (sample src stride row x).
Proof using Hok.
  intros Hr Hx. destruct (offset_in_plane row x Hr Hx) as [_ Hb].
  unfold sample.
  destruct (lookup_lt_is_Some_2 src (Z.to_nat (row * stride + x))) as [v Hv].
  - pose proof (ok_len _ _ _ _ Hok). lia.
  - now rewrite Hv.
Qed.

Lemma sample_byte row x : is_byte (sample src stride row x).
Proof using Hok.
  unfold sample.
  destruct (src !! Z.to_nat (row * stride + x)) as [v|] eqn:Hv; simpl.
  - pose proof (ok_bytes _ _ _ _ Hok) as Hb.
    rewrite Forall_lookup in Hb. eapply Hb, Hv.
  - unfold is_byte. lia.
Qed.

Lemma load_ok row x st :
  0 <= row < h -> 0 <= x < w ->
  load src (offset row stride x) st
  = Ok (sample src stride row x,
        mkDev (dev_dst st) (dev_log st ++ [Rd (row * stride + x)])).
Proof using Hok.
  intros Hr Hx. destruct (offset_in_plane row x Hr Hx) as [-> _].
  unfold load. now rewrite sample_lookup.
Qed.

Lemma store_ok row x v st :
  0 <= row < h -> 0 <= x < w ->
  length (dev_dst st) = Z.to_nat (stride * h) ->
  store (offset row stride x) v st
  = Ok (tt, mkDev (<[Z.to_nat (row * stride + x) := v]> (dev_dst st))
                  (dev_log st ++ [Wr (row * stride + x)])).
Proof using Hok.
  intros Hr Hx Hl. destruct (offset_in_plane row x Hr Hx) as [-> Hb].
  unfold store.
  destruct (Nat.ltb_spec (Z.to_nat (row * stride + x)) (length (dev_dst st)));
    [reflexivity|lia].
Qed.

Lemma clamp_row_range r : 0 <= clamp_row h r < h.
Proof using Hok. destruct Hok. unfold clamp_row. lia. Qed.

Lemma lumaLoop_S fuel x y dy sum weight :
  lumaLoop src h stride (S fuel) x y dy sum weight
  = if dy <=? 3 then
      yy ← lift (int_add y dy);
      let yy := if yy <? 0 then 0 else yy in
      yy ← (if yy >=? h then lift (int_sub h 1) else mret yy);
      let wgt := if Z.abs dy =? 1 then 4 else 1 in
      v ← load src (offset yy stride x);
      p ← lift (int_mul v wgt);
      sum ← lift (int_add sum p);
      weight ← lift (int_add weight wgt);
      dy ← lift (int_add dy 2);
      lumaLoop src h stride fuel x y dy sum weight
    else mret (sum, weight).
Proof. reflexivity. Qed.

(** The two clamping tests of the loop compute [clamp_row]. *)
Lemma clamp_step r st :
  (if (if r <? 0 then 0 else r) >=? h
   then lift (int_sub h 1)
   else mret (if r <? 0 then 0 else r)) st
  = Ok (clamp_row h r, st).
Proof using Hok.
  destruct Hok as [_ Hh _ _ Hhm _ _]. rewrite INT_MAX_eq in Hhm.
  unfold clamp_row.
  destruct (Z.ltb_spec r 0).
  - destruct (Z.geb_spec 0 h); [lia|].
    rewrite dev_ret_ok. do 2 f_equal. lia.
  - destruct (Z.geb_spec r h).
    + erewrite lift_ok by (apply int_sub_ok; rewrite INT_MIN_eq, INT_MAX_eq; lia).
      do 2 f_equal. lia.
    + rewrite dev_ret_ok. do 2 f_equal. lia.
Qed.

(** One iteration of the luma loop. *)
Lemma lumaLoop_step fuel x y dy sum weight st :
  0 <= x < w -> 0 <= y < h -> -3 <= dy <= 3 ->
  0 <= sum <= 10000 -> 0 <= weight <= 100 ->
  lumaLoop src h stride (S fuel) x y dy sum weight st
  = lumaLoop src h stride fuel x y (dy + 2)
      (sum + sample src stride (clamp_row h (y + dy)) x
             * (if Z.abs dy =? 1 then 4 else 1))
      (weight + (if Z.abs dy =? 1 then 4 else 1))
      (mkDev (dev_dst st)
             (dev_log st ++ [Rd (clamp_row h (y + dy) * stride + x)])).
Proof using Hok.
  intros Hx Hy Hdy Hsum Hwt.
  pose proof (ok_hmax _ _ _ _ Hok) as Hhm.
  rewrite INT_MAX_eq in Hhm.
  assert (Hrange : forall z, -10 <= z <= 2147483647 -> INT_MIN <= z <= INT_MAX)
    by (intros; rewrite INT_MIN_eq, INT_MAX_eq; lia).
  rewrite lumaLoop_S.
  destruct (Z.leb_spec dy 3); [|lia].
  erewrite dev_bind_ok by (apply lift_ok, int_add_ok, Hrange; lia).
  cbv zeta.
  erewrite dev_bind_ok by apply clamp_step.
  pose proof (clamp_row_range (y + dy)) as Hc.
  pose proof (sample_byte (clamp_row h (y + dy)) x) as Hb.
  unfold is_byte in Hb.
  set (wgt := if Z.abs dy =? 1 then 4 else 1).
  assert (Hwgt : 1 <= wgt <= 4) by (subst wgt; destruct (Z.abs dy =? 1); lia).
  erewrite dev_bind_ok by (apply load_ok; assumption).
  erewrite dev_bind_ok by (apply lift_ok, int_mul_ok, Hrange; nia).
  erewrite dev_bind_ok by (apply lift_ok, int_add_ok, Hrange; nia).
  erewrite dev_bind_ok by (apply lift_ok, int_add_ok, Hrange; lia).
  erewrite dev_bind_ok by (apply lift_ok, int_add_ok, Hrange; lia).
  reflexivity.
Qed.

(** The whole loop: four taps, total weight 10. *)
Lemma lumaLoop_spec x y st :
  0 <= x < w -> 0 <= y < h ->
  lumaLoop src h stride 5 x y (-3) 0 0 st
  = Ok ((spec_luma_sum src h stride x y, 10),
        mkDev (dev_dst st)
              (dev_log st ++ [Rd (clamp_row h (y - 3) * stride + x);
                              Rd (clamp_row h (y - 1) * stride + x);
                              Rd (clamp_row h (y + 1) * stride + x);
                              Rd (clamp_row h (y + 3) * stride + x)])).
Proof using Hok.
  intros Hx Hy.
  pose proof (sample_byte (clamp_row h (y + -3)) x) as H1.
  pose proof (sample_byte (clamp_row h (y + -1)) x) as H2.
  pose proof (sample_byte (clamp_row h (y + 1)) x) as H3.
  pose proof (sample_byte (clamp_row h (y + 3)) x) as H4.
  unfold is_byte in *.
  rewrite lumaLoop_step by (try assumption; lia).
  change (-3 + 2) with (-1). change (Z.abs (-3) =? 1) with false.
  cbv iota.
  rewrite lumaLoop_step by (try assumption; lia).
  change (-1 + 2) with 1. change (Z.abs (-1) =? 1) with true.
  cbv iota.
  rewrite lumaLoop_step by (try assumption; lia).
  change (1 + 2) with 3. change (Z.abs 1 =? 1) with true.
  cbv iota.
  rewrite lumaLoop_step by (try assumption; lia).
  change (3 + 2) with 5. change (Z.abs 3 =? 1) with false.
  cbv iota.
  rewrite lumaLoop_S. change (5 <=? 3) with false. cbv iota.
  rewrite dev_ret_ok. cbn [dev_dst dev_log].
  rewrite <- !app_assoc. cbn [app].
  change (y + -3) with (y - 3). change (y + -1) with (y - 1).
  unfold spec_luma_sum. do 3 f_equal. lia.
Qed.

Lemma spec_luma_sum_range x y : 0 <= spec_luma_sum src h stride x y <= 2550.
Proof using Hok.
  unfold spec_luma_sum.
  pose proof (sample_byte (clamp_row h (y - 3)) x) as H1.
  pose proof (sample_byte (clamp_row h (y - 1)) x) as H2.
  pose proof (sample_byte (clamp_row h (y + 1)) x) as H3.
  pose proof (sample_byte (clamp_row h (y + 3)) x) as H4.
  unfold is_byte in *. lia.
Qed.

Lemma spec_luma_byte x y : is_byte (spec_luma src h stride x y).
Proof using Hok.
  pose proof (spec_luma_sum_range x y) as Hs. unfold spec_luma, is_byte.
  split.
  - apply Z.div_pos; lia.
  - apply Z.lt_succ_r, Z.div_lt_upper_bound; lia.
Qed.

Lemma spec_chroma_byte x y : is_byte (spec_chroma src h stride x y).
Proof using Hok.
  pose proof (sample_byte (Z.max (y - 1) 0) x) as H1.
  pose proof (sample_byte (Z.min (y + 1) (h - 1)) x) as H2.
  unfold spec_chroma, is_byte in *.
  split.
  - apply Z.div_pos; lia.
  - apply Z.lt_succ_r, Z.div_lt_upper_bound; lia.
Qed.

(** A thread outside the plane returns before any access. *)
Lemma deintPixel_skip x y st :
  x >= w \/ y >= h ->
  deintPixel src w h stride useTop isChroma x y st = Ok (tt, st).
Proof.
  intros Hout. unfold deintPixel.
  destruct (Z.geb_spec x w), (Z.geb_spec y h); try reflexivity. lia.
Qed.

(** A thread inside the plane reads only inside the plane and writes the
    value of the specification at its own offset. *)
Lemma deintPixel_spec x y st :
  0 <= x < w -> 0 <= y < h ->
  length (dev_dst st) = Z.to_nat (stride * h) ->
  exists tr,
    deintPixel src w h stride useTop isChroma x y st
    = Ok (tt, mkDev (<[Z.to_nat (y * stride + x)
                       := spec_pixel src h stride useTop isChroma x y]>
                       (dev_dst st))
                    (dev_log st ++ tr ++ [Wr (y * stride + x)]))
    /\ Forall (in_plane h stride) tr.
Proof using Hok.
  intros Hx Hy Hlen.
  pose proof (ok_hmax _ _ _ _ Hok) as Hhm. rewrite INT_MAX_eq in Hhm.
  assert (Hrange : forall z, -10 <= z <= 2147483647 -> INT_MIN <= z <= INT_MAX)
    by (intros; rewrite INT_MIN_eq, INT_MAX_eq; lia).
  assert (Hin : forall row, 0 <= row < h ->
                in_plane h stride (Rd (row * stride + x))).
  { intros row Hr. apply (offset_in_plane row x Hr Hx). }
  unfold deintPixel, spec_pixel.
  destruct (Z.geb_spec x w); [lia|]. destruct (Z.geb_spec y h); [lia|].
  cbn [orb].
  destruct (missing useTop y); cbn [negb].
  - destruct (isChroma =? 0).
    + (* luma *)
      exists [Rd (clamp_row h (y - 3) * stride + x);
              Rd (clamp_row h (y - 1) * stride + x);
              Rd (clamp_row h (y + 1) * stride + x);
              Rd (clamp_row h (y + 3) * stride + x)].
      pose proof (spec_luma_sum_range x y) as Hsum.
      pose proof (spec_luma_byte x y) as Hb. unfold is_byte in Hb.
      split.
      * erewrite dev_bind_ok by (apply lumaLoop_spec; assumption).
        cbv beta iota.
        erewrite dev_bind_ok
          by (apply lift_ok, (int_div_ok 10 2); rewrite ?INT_MAX_eq; lia).
        change (10 / 2) with 5.
        erewrite dev_bind_ok by (apply lift_ok, int_add_ok, Hrange; lia).
        erewrite dev_bind_ok
          by (apply lift_ok, int_div_ok; rewrite ?INT_MAX_eq; lia).
        fold (spec_luma src h stride x y).
        rewrite to_uint8_small by assumption.
        rewrite store_ok by assumption.
        cbn [dev_dst dev_log]. now rewrite <- app_assoc.
      * repeat first [apply Forall_nil_2 | apply Forall_cons_2];
          apply Hin, clamp_row_range.
    + (* chroma *)
      exists [Rd (Z.max (y - 1) 0 * stride + x);
              Rd (Z.min (y + 1) (h - 1) * stride + x)].
      pose proof (sample_byte (Z.max (y - 1) 0) x) as H1.
      pose proof (sample_byte (Z.min (y + 1) (h - 1)) x) as H2.
      pose proof (spec_chroma_byte x y) as Hb.
      unfold is_byte in H1, H2, Hb.
      split.
      * assert (E0 : forall s0,
                  (if y >? 0 then lift (int_sub y 1) else mret 0) s0
                  = Ok (Z.max (y - 1) 0, s0)).
        { intros s0. destruct (Z.gtb_spec y 0).
          - erewrite lift_ok by (apply int_sub_ok, Hrange; lia).
            do 2 f_equal. lia.
          - rewrite dev_ret_ok. do 2 f_equal. lia. }
        erewrite dev_bind_ok by apply E0.
        erewrite dev_bind_ok by (apply lift_ok, int_add_ok, Hrange; lia).
        assert (E1 : forall s0,
                  (if y + 1 <? h then mret (y + 1) else lift (int_sub h 1)) s0
                  = Ok (Z.min (y + 1) (h - 1), s0)).
        { intros s0. destruct (Z.ltb_spec (y + 1) h).
          - rewrite dev_ret_ok. do 2 f_equal. lia.
          - erewrite lift_ok by (apply int_sub_ok, Hrange; lia).
            do 2 f_equal. lia. }
        erewrite dev_bind_ok by apply E1.
        erewrite dev_bind_ok by (apply load_ok; lia).
        erewrite dev_bind_ok by (apply load_ok; lia).
        erewrite dev_bind_ok by (apply lift_ok, int_add_ok, Hrange; lia).
        erewrite dev_bind_ok by (apply lift_ok, int_add_ok, Hrange; lia).
        erewrite dev_bind_ok
          by (apply lift_ok, int_div_ok; rewrite ?INT_MAX_eq; lia).
        fold (spec_chroma src h stride x y).
        rewrite to_uint8_small by assumption.
        rewrite store_ok by assumption.
        cbn [dev_dst dev_log]. now rewrite <- !app_assoc.
      * repeat first [apply Forall_nil_2 | apply Forall_cons_2]; apply Hin; lia.
  - (* a present row *)
    exists [Rd (y * stride + x)].
    split.
    + erewrite dev_bind_ok by (apply load_ok; assumption).
      rewrite store_ok by assumption.
      cbn [dev_dst dev_log]. now rewrite <- app_assoc.
    + repeat first [apply Forall_nil_2 | apply Forall_cons_2]. now apply Hin.
Qed.

End PixelProofs.

(** ** A whole launch *)

Lemma thread_coord b t :
  0 <= b -> 0 <= t < 16 -> b * 16 + t <= INT_MAX ->
  to_int (to_uint (to_uint (b * 16) + t)) = b * 16 + t.
Proof.
  rewrite INT_MAX_eq. intros Hb Ht Hm.
  rewrite (to_uint_small (b * 16)) by lia.
  rewrite to_uint_small by lia.
  apply to_int_small. rewrite INT_MIN_eq, INT_MAX_eq. lia.
Qed.

Lemma offset_inj stride x y x0 y0 :
  0 <= x < stride -> 0 <= x0 < stride ->
  y * stride + x = y0 * stride + x0 -> x = x0 /\ y = y0.
Proof.
  intros Hx Hx0 E.
  assert (y = y0) as ->; [|lia].
  destruct (Z.lt_trichotomy y y0) as [Hlt|[->|Hlt]]; [|reflexivity|].
  - assert ((y + 1) * stride <= y0 * stride)
      by (apply Z.mul_le_mono_nonneg_r; lia). lia.
  - assert ((y0 + 1) * stride <= y * stride)
      by (apply Z.mul_le_mono_nonneg_r; lia). lia.
Qed.

Lemma thread_of_pixel_inv x y b t :
  0 <= dim_x t < 16 -> 0 <= dim_y t < 16 ->
  (b, t) = thread_of_pixel x y <->
  dim_x b * 16 + dim_x t = x /\ dim_y b * 16 + dim_y t = y.
Proof.
  intros Htx Hty. destruct b as [bx by_], t as [tx ty]. cbn in *.
  unfold thread_of_pixel. split.
  - intros [= -> -> -> ->].
    pose proof (Z.div_mod x 16). pose proof (Z.div_mod y 16). lia.
  - intros [<- <-].
    rewrite (Z.add_comm (bx * 16)), (Z.add_comm (by_ * 16)).
    rewrite !Z.div_add, !Z.mod_add by lia.
    rewrite !Z.div_small, !Z.mod_small by lia.
    reflexivity.
Qed.

Section LaunchProofs.

Context (src : list Z) (w h stride : Z) (useTop isChroma : Z).
Hypothesis Hok : plane_ok src w h stride.

Local Abbreviation K :=
  (fun b t => deintKernel src w h stride useTop isChroma b (mkDim3 16 16) t).
Local Abbreviation spec := (spec_pixel src h stride useTop isChroma).
Local Abbreviation N := (Z.to_nat (stride * h)).

(** What one thread of the launch does. *)
Lemma deintKernel_thread b t st :
  thread_ok (b, t) -> length (dev_dst st) = N ->
  let x := dim_x b * 16 + dim_x t in
  let y := dim_y b * 16 + dim_y t in
  (0 <= x < w /\ 0 <= y < h /\
   exists tr,
     K b t st = Ok (tt, mkDev (<[Z.to_nat (y * stride + x) := spec x y]>
                                 (dev_dst st))
                              (dev_log st ++ tr ++ [Wr (y * stride + x)]))
     /\ Forall (in_plane h stride) tr)
  \/ ((x >= w \/ y >= h) /\ K b t st = Ok (tt, st)).
Proof using Hok.
  intros [(Hbx & Htx & Hmx) (Hby & Hty & Hmy)] Hlen x y.
  unfold deintKernel. cbn [dim_x dim_y].
  rewrite !thread_coord by assumption. fold x y.
  destruct (Z_lt_ge_dec x w) as [Hx|Hx]; [destruct (Z_lt_ge_dec y h) as [Hy|Hy]|].
  - left. split; [subst x; lia|]. split; [subst y; lia|].
    apply deintPixel_spec; [assumption|subst x; lia|subst y; lia|assumption].
  - right. split; [now right|]. apply deintPixel_skip. now right.
  - right. split; [now left|]. apply deintPixel_skip. now left.
Qed.

(** Writing the value of one pixel keeps those already in place. *)
Lemma write_keeps (dst : list Z) x0 y0 x y :
  length dst = N ->
  0 <= x0 < w -> 0 <= y0 < h -> 0 <= x < w -> 0 <= y < h ->
  (x0 = x /\ y0 = y) \/ dst !! Z.to_nat (y * stride + x) = Some (spec x y) ->
  <[Z.to_nat (y0 * stride + x0) := spec x0 y0]> dst
    !! Z.to_nat (y * stride + x) = Some (spec x y).
Proof using Hok.
  intros Hlen Hx0 Hy0 Hx Hy Hcase.
  destruct (offset_in_plane src w h stride Hok y0 x0 Hy0 Hx0) as [_ Hb0].
  destruct (offset_in_plane src w h stride Hok y x Hy Hx) as [_ Hb].
  pose proof (ok_w _ _ _ _ Hok) as Hw.
  destruct (Z.eq_dec (y0 * stride + x0) (y * stride + x)) as [E|E].
  - apply offset_inj in E as [-> ->]; [|lia..].
    apply list_lookup_insert_eq. lia.
  - destruct Hcase as [[-> ->]|Hold]; [congruence|].
    rewrite list_lookup_insert_ne; [assumption|].
    intros E'. apply E. apply Z2Nat.inj; lia.
Qed.

(** Any schedule of well-formed threads runs to completion, stays inside
    the plane, and leaves the specified value at every pixel that one of
    its threads handles. *)
Lemma run_threads_spec sched :
  Forall thread_ok sched -> forall st,
  length (dev_dst st) = N ->
  exists st',
    run_threads K sched st = Ok (tt, st')
    /\ length (dev_dst st') = N
    /\ (Forall (in_plane h stride) (dev_log st) ->
        Forall (in_plane h stride) (dev_log st'))
    /\ (forall x y, 0 <= x < w -> 0 <= y < h ->
        thread_of_pixel x y ∈ sched
        \/ dev_dst st !! Z.to_nat (y * stride + x) = Some (spec x y) ->
        dev_dst st' !! Z.to_nat (y * stride + x) = Some (spec x y))
    /\ (forall x y, 0 <= x < w -> 0 <= y < h ->
        thread_of_pixel x y ∈ sched \/ Wr (y * stride + x) ∈ dev_log st ->
        Wr (y * stride + x) ∈ dev_log st').
Proof using Hok.
  induction 1 as [|[b t] sched Hbt Hrest IH]; intros st Hlen.
  - exists st. split; [reflexivity|]. split; [assumption|].
    split; [auto|]. split; intros x y _ _ [Hin|Hold]; auto;
      now apply elem_of_nil in Hin.
  - pose proof Hbt as [(_ & Htx & _) (_ & Hty & _)].
    change (run_threads K ((b, t) :: sched) st)
      with ((K b t ≫= fun _ => run_threads K sched) st).
    destruct (deintKernel_thread b t st Hbt Hlen)
      as [(Hx0 & Hy0 & tr & Hrun & Htr)|[Hout Hrun]].
    + (* the thread handles a pixel of the plane *)
      set (x0 := dim_x b * 16 + dim_x t) in *.
      set (y0 := dim_y b * 16 + dim_y t) in *.
      erewrite dev_bind_ok by exact Hrun.
      match type of Hrun with _ = Ok (_, ?s) => set (st1 := s) in * end.
      destruct (IH st1) as (st' & Hrun' & Hlen' & Hlog' & Hval' & Hwr').
      { subst st1. cbn [dev_dst]. now rewrite length_insert. }
      exists st'. split; [exact Hrun'|]. split; [exact Hlen'|].
      split; [|split].
      * intros Hlog. apply Hlog'. subst st1. cbn [dev_log].
        rewrite !Forall_app. split; [assumption|]. split; [assumption|].
        apply Forall_cons_2; [|apply Forall_nil_2].
        apply (offset_in_plane src w h stride Hok y0 x0 Hy0 Hx0).
      * intros x y Hx Hy Hcase. apply Hval'; [assumption..|].
        destruct Hcase as [Hin|Hold].
        -- apply elem_of_cons in Hin as [Hhd|Htl]; [|now left].
           right. symmetry in Hhd.
           apply thread_of_pixel_inv in Hhd as [Ex Ey]; [|assumption..].
           subst st1. cbn [dev_dst].
           apply write_keeps; auto.
        -- right. subst st1. cbn [dev_dst]. apply write_keeps; auto.
      * intros x y Hx Hy Hcase. apply Hwr'; [assumption..|].
        destruct Hcase as [Hin|Hold].
        -- apply elem_of_cons in Hin as [Hhd|Htl]; [|now left].
           right. symmetry in Hhd.
           apply thread_of_pixel_inv in Hhd as [Ex Ey]; [|assumption..].
           subst st1. cbn [dev_log]. fold x0 in Ex. fold y0 in Ey.
           rewrite Ex, Ey, !elem_of_app, list_elem_of_singleton. auto.
        -- right. subst st1. cbn [dev_log]. rewrite elem_of_app. now left.
    + (* the thread is outside the plane *)
      erewrite dev_bind_ok by exact Hrun.
      destruct (IH st Hlen) as (st' & Hrun' & Hlen' & Hlog' & Hval' & Hwr').
      exists st'. split; [exact Hrun'|]. split; [exact Hlen'|].
      split; [exact Hlog'|]. split.
      * intros x y Hx Hy Hcase. apply Hval'; [assumption..|].
        destruct Hcase as [Hin|Hold]; [|now right].
        apply elem_of_cons in Hin as [Hhd|Htl]; [|now left].
        symmetry in Hhd.
        apply thread_of_pixel_inv in Hhd as [Ex Ey]; [|assumption..]. lia.
      * intros x y Hx Hy Hcase. apply Hwr'; [assumption..|].
        destruct Hcase as [Hin|Hold]; [|now right].
        apply elem_of_cons in Hin as [Hhd|Htl]; [|now left].
        symmetry in Hhd.
        apply thread_of_pixel_inv in Hhd as [Ex Ey]; [|assumption..]. lia.
Qed.

End LaunchProofs.

Lemma elem_of_grid_threads blocks threads b t :
  (b, t) ∈ grid_threads blocks threads <->
  (0 <= dim_x b < dim_x blocks /\ 0 <= dim_y b < dim_y blocks)
  /\ (0 <= dim_x t < dim_x threads /\ 0 <= dim_y t < dim_y threads).
Proof.
  unfold grid_threads. destruct b as [bx by_], t as [tx ty]. cbn [dim_x dim_y].
  rewrite list_elem_of_bind. split.
  - intros (by' & H & Hby). apply list_elem_of_bind in H as (bx' & H & Hbx).
    apply list_elem_of_bind in H as (ty' & H & Hty).
    apply list_elem_of_bind in H as (tx' & H & Htx).
    apply list_elem_of_singleton in H. injection H as -> -> -> ->.
    rewrite elem_of_seqZ in Hby, Hbx, Hty, Htx. lia.
  - intros [[Hbx Hby] [Htx Hty]].
    exists by_. split; [|apply elem_of_seqZ; lia].
    apply list_elem_of_bind. exists bx. split; [|apply elem_of_seqZ; lia].
    apply list_elem_of_bind. exists ty. split; [|apply elem_of_seqZ; lia].
    apply list_elem_of_bind. exists tx. split; [|apply elem_of_seqZ; lia].
    now apply list_elem_of_singleton.
Qed.

(** The grid [((w + 15) / 16, (h + 15) / 16)] of 16 by 16 blocks consists
    of well-formed threads and has one for every pixel. *)
Lemma grid_threads_ok w h :
  0 < w -> 0 < h -> w + 15 <= INT_MAX -> h + 15 <= INT_MAX ->
  Forall thread_ok
    (grid_threads (mkDim3 ((w + 15) / 16) ((h + 15) / 16)) (mkDim3 16 16)).
Proof.
  rewrite INT_MAX_eq. intros Hw Hh Hwm Hhm.
  apply Forall_forall. intros [b t] Hin.
  apply elem_of_grid_threads in Hin as [[Hbx Hby] [Htx Hty]].
  cbn [dim_x dim_y] in *. unfold thread_ok. rewrite INT_MAX_eq.
  pose proof (Z.mul_div_le (w + 15) 16). pose proof (Z.mul_div_le (h + 15) 16).
  lia.
Qed.

Lemma grid_threads_cover w h x y :
  0 <= x < w -> 0 <= y < h ->
  thread_of_pixel x y
  ∈ grid_threads (mkDim3 ((w + 15) / 16) ((h + 15) / 16)) (mkDim3 16 16).
Proof.
  intros Hx Hy. unfold thread_of_pixel. apply elem_of_grid_threads.
  cbn [dim_x dim_y].
  pose proof (Z.mod_pos_bound x 16). pose proof (Z.mod_pos_bound y 16).
  assert (0 <= x / 16) by (apply Z.div_pos; lia).
  assert (0 <= y / 16) by (apply Z.div_pos; lia).
  assert (x / 16 < (w + 15) / 16).
  { apply Z.div_lt_upper_bound; [lia|].
    pose proof (Z.div_mod (w + 15) 16). pose proof (Z.mod_pos_bound (w + 15) 16).
    lia. }
  assert (y / 16 < (h + 15) / 16).
  { apply Z.div_lt_upper_bound; [lia|].
    pose proof (Z.div_mod (h + 15) 16). pose proof (Z.mod_pos_bound (h + 15) 16).
    lia. }
  lia.
Qed.

(** The outcome of a launch does not depend on the order in which its
    threads run. *)
Lemma launch_order_irrelevant (src : list Z) w h stride useTop isChroma
    (sched : list (dim3 * dim3)) st :
  plane_ok src w h stride ->
  sched ≡ₚ grid_threads (mkDim3 ((w + 15) / 16) ((h + 15) / 16))
                        (mkDim3 16 16) ->
  length (dev_dst st) = Z.to_nat (stride * h) ->
  exists st',
    run_threads
      (fun b t => deintKernel src w h stride useTop isChroma b (mkDim3 16 16) t)
      sched st = Ok (tt, st')
    /\ forall x y, 0 <= x < w -> 0 <= y < h ->
       dev_dst st' !! Z.to_nat (y * stride + x)
       = Some (spec_pixel src h stride useTop isChroma x y).
Proof.
  intros Hok Hperm Hlen.
  pose proof Hok as [Hw Hh _ Hwm Hhm _ _].
  assert (Hall : Forall thread_ok sched).
  { rewrite Hperm. apply grid_threads_ok; lia. }
  destruct (run_threads_spec src w h stride useTop isChroma Hok sched Hall
              st Hlen) as (st' & Hrun & _ & _ & Hval & _).
  exists st'. split; [exact Hrun|].
  intros x y Hx Hy. apply Hval; [assumption..|].
  left. rewrite Hperm. now apply grid_threads_cover.
Qed.

(** ** The host wrapper *)

Lemma result_bind_ok {A B} (m : Result A) (k : A -> Result B) a :
  m = Ok a -> (m ≫= k) = k a.
Proof. now intros ->. Qed.

Lemma result_bind_inv {A B} (m : Result A) (k : A -> Result B) r :
  (m ≫= k) = Ok r -> exists a, m = Ok a /\ k a = Ok r.
Proof. destruct m as [a|f]; [eauto|discriminate]. Qed.

Lemma length_cudaMalloc stale n : length (cudaMalloc stale n) = Z.to_nat n.
Proof. unfold cudaMalloc. now rewrite length_fmap, length_seq. Qed.

Lemma cudaMemcpy_ok (dst src : list Z) n :
  (Z.to_nat n <= length src)%nat -> (Z.to_nat n <= length dst)%nat ->
  cudaMemcpy dst src n = Ok (take (Z.to_nat n) src ++ drop (Z.to_nat n) dst).
Proof.
  intros Hs Hd. unfold cudaMemcpy.
  destruct (Nat.leb_spec (Z.to_nat n) (length src)); [|lia].
  destruct (Nat.leb_spec (Z.to_nat n) (length dst)); [|lia].
  reflexivity.
Qed.

Section HostProofs.

Context (stale : nat -> Z) (sp dp : list Z) (w h stride : Z).
Context (useTop isChroma : Z).
Hypothesis Hok : plane_ok sp w h stride.

Local Abbreviation N := (Z.to_nat (stride * h)).

Lemma frame_size_eq : to_size_t (to_size_t stride * to_size_t h) = stride * h.
Proof using Hok.
  destruct Hok as [Hw Hh Hs _ Hhm _ _]. rewrite INT_MAX_eq in Hs, Hhm.
  assert (stride * h <= 2147483647 * 2147483647)
    by (apply Z.mul_le_mono_nonneg; lia).
  assert (0 <= stride * h) by (apply Z.mul_nonneg_nonneg; lia).
  rewrite (to_size_t_small stride), (to_size_t_small h) by lia.
  apply to_size_t_small. lia.
Qed.

(** The device copy of the source plane is a well-formed plane. *)
Lemma plane_ok_take : plane_ok (take N sp) w h stride.
Proof using Hok.
  destruct Hok as [Hw Hh Hs Hwm Hhm Hlen Hb].
  constructor; try assumption.
  - rewrite length_take. lia.
  - now apply Forall_take.
Qed.

Lemma sample_take row x :
  0 <= row < h -> 0 <= x < w ->
  sample (take N sp) stride row x = sample sp stride row x.
Proof using Hok.
  intros Hr Hx.
  destruct (offset_in_plane sp w h stride Hok row x Hr Hx) as [_ Hb].
  unfold sample. rewrite lookup_take_lt by lia. reflexivity.
Qed.

Lemma spec_pixel_take x y :
  0 <= x < w -> 0 <= y < h ->
  spec_pixel (take N sp) h stride useTop isChroma x y
  = spec_pixel sp h stride useTop isChroma x y.
Proof using Hok.
  intros Hx Hy. pose proof (ok_h _ _ _ _ Hok) as Hh.
  unfold spec_pixel, spec_luma, spec_luma_sum, spec_chroma.
  rewrite !sample_take;
    first [reflexivity | assumption | apply (clamp_row_range sp w h stride Hok)
           | lia].
Qed.

Hypothesis Hdp : (N <= length dp)%nat.

(** The wrapper runs to completion, the kernel stays inside the plane, and
    the host destination holds the specified value at every pixel; bytes
    of the destination past the plane are left as they were. *)
Lemma runDeintKernel_spec :
  exists dp' log,
    runDeintKernel stale sp dp w h stride useTop isChroma = Ok (dp', log)
    /\ length dp' = length dp
    /\ Forall (in_plane h stride) log
    /\ (forall x y, 0 <= x < w -> 0 <= y < h ->
        dp' !! Z.to_nat (y * stride + x)
        = Some (spec_pixel sp h stride useTop isChroma x y)
        /\ Wr (y * stride + x) ∈ log)
    /\ (forall i, (N <= i)%nat -> dp' !! i = dp !! i).
Proof using Hok Hdp.
  pose proof Hok as [Hw Hh Hs Hwm Hhm Hlen Hb].
  pose proof plane_ok_take as Hok'.
  unfold runDeintKernel. rewrite frame_size_eq.
  erewrite result_bind_ok
    by (apply cudaMemcpy_ok; rewrite ?length_cudaMalloc; lia).
  rewrite (drop_ge (cudaMalloc stale (stride * h)))
    by (rewrite length_cudaMalloc; lia).
  rewrite app_nil_r.
  rewrite INT_MAX_eq in Hs, Hwm, Hhm.
  erewrite result_bind_ok
    by (apply int_add_ok; rewrite INT_MIN_eq, INT_MAX_eq; lia).
  erewrite result_bind_ok by (apply int_div_ok; rewrite ?INT_MAX_eq; lia).
  erewrite result_bind_ok
    by (apply int_add_ok; rewrite INT_MIN_eq, INT_MAX_eq; lia).
  erewrite result_bind_ok by (apply int_div_ok; rewrite ?INT_MAX_eq; lia).
  assert (Hgx : 0 <= (w + 15) / 16 <= w + 15).
  { split; [apply Z.div_pos; lia|].
    apply Z.div_le_upper_bound; lia. }
  assert (Hgy : 0 <= (h + 15) / 16 <= h + 15).
  { split; [apply Z.div_pos; lia|].
    apply Z.div_le_upper_bound; lia. }
  rewrite !to_uint_small by lia.
  rewrite (to_size_t_small stride) by lia.
  unfold launch.
  destruct (run_threads_spec (take N sp) w h stride useTop isChroma Hok'
              _ (grid_threads_ok w h ltac:(lia) Hh
                   ltac:(rewrite INT_MAX_eq; lia) ltac:(rewrite INT_MAX_eq; lia))
              (mkDev (cudaMalloc stale (stride * h)) []))
    as (st' & Hrun & Hlen' & Hlog' & Hval' & Hwr').
  { cbn [dev_dst]. apply length_cudaMalloc. }
  erewrite result_bind_ok by exact Hrun.
  cbv beta iota.
  erewrite result_bind_ok by (apply cudaMemcpy_ok; lia).
  rewrite take_ge by lia.
  exists (dev_dst st' ++ drop N dp), (dev_log st').
  split; [reflexivity|].
  split; [rewrite length_app, length_drop; lia|].
  split; [apply Hlog'; constructor|].
  split.
  - intros x y Hx Hy.
    destruct (offset_in_plane sp w h stride Hok y x Hy Hx) as [_ Ho].
    split.
    + rewrite lookup_app_l by lia.
      rewrite <- spec_pixel_take by assumption.
      apply Hval'; [assumption..|]. left. now apply grid_threads_cover.
    + apply Hwr'; [assumption..|]. left. now apply grid_threads_cover.
  - intros i Hi. rewrite lookup_app_r by lia.
    rewrite lookup_drop. f_equal. lia.
Qed.

End HostProofs.

(** ** The kernel: claims *)

Ltac solve_bytes :=
  repeat (apply Forall_cons_2; [unfold is_byte; lia|]); apply Forall_nil_2.

Ltac solve_plane_ok :=
  constructor;
  [ lia | lia | rewrite INT_MAX_eq; lia | rewrite INT_MAX_eq; lia
  | rewrite INT_MAX_eq; lia | vm_compute; lia | solve_bytes ].

(** With [y >= 0], [missing] tests the parity of the row: odd rows when
    [useTop] is set, even rows otherwise. *)
Lemma missing_parity useTop y :
  0 <= y ->
  missing useTop y = if negb (useTop =? 0) then Z.odd y else Z.even y.
Proof.
  intros Hy. unfold missing.
  rewrite Z.rem_mod_nonneg by lia. rewrite Zmod_odd.
  rewrite <- Z.negb_odd.
  destruct (negb (useTop =? 0)), (Z.odd y); reflexivity.
Qed.

(** A row whose parity is the missing one ([y] odd when [useTop] is set,
    even otherwise) is a row the kernel rebuilds; a row of the other parity
    is one it copies. *)
Lemma missing_of_parity useTop y :
  0 <= y -> Z.odd y = negb (useTop =? 0) -> missing useTop y = true.
Proof.
  intros Hy Hpar. rewrite missing_parity by assumption.
  rewrite <- Z.negb_odd, Hpar. now destruct (negb (useTop =? 0)).
Qed.

Lemma present_of_parity useTop y :
  0 <= y -> Z.odd y = (useTop =? 0) -> missing useTop y = false.
Proof.
  intros Hy Hpar. rewrite missing_parity by assumption.
  rewrite <- Z.negb_odd, Hpar. now destruct (useTop =? 0).
Qed.

(** C2. For every luma row [y] of the missing parity (odd rows when
    [useTop] is set, even rows otherwise) and every column [x < w], the
    destination sample is [(sum + 5) / 10], where [sum] adds the rows at
    offsets -3, -1, +1, +3, each clamped on its own to [[0, h-1]], with
    weight 4 for the offsets -1 and +1 and weight 1 for -3 and +3. Rows that
    coincide after clamping are added once per offset, and the divisor is
    10 in every case. *)
Theorem luma_missing_row_weighted_average
    stale (sp dp : list Z) w h stride useTop :
  plane_ok sp w h stride ->
  (Z.to_nat (stride * h) <= length dp)%nat ->
  exists dp' log,
    runDeintKernel stale sp dp w h stride useTop 0 = Ok (dp', log)
    /\ forall x y, 0 <= x < w -> 0 <= y < h ->
       Z.odd y = negb (useTop =? 0) ->
       let tap := fun dy => sample sp stride (clamp_row h (y + dy)) x in
       dp' !! Z.to_nat (y * stride + x)
       = Some ((1 * tap (-3) + 4 * tap (-1) + 4 * tap 1 + 1 * tap 3 + 5) / 10).
Proof.
  intros Hok Hdp.
  destruct (runDeintKernel_spec stale sp dp w h stride useTop 0 Hok Hdp)
    as (dp' & log & Hrun & _ & _ & Hval & _).
  exists dp', log. split; [exact Hrun|].
  intros x y Hx Hy Hpar tap.
  pose proof (missing_of_parity useTop y (proj1 Hy) Hpar) as Hmiss.
  destruct (Hval x y Hx Hy) as [-> _].
  unfold spec_pixel. rewrite Hmiss. cbn [Z.eqb].
  unfold spec_luma, spec_luma_sum, tap.
  change (y + -3) with (y - 3). change (y + -1) with (y - 1).
  do 2 f_equal. lia.
Qed.

(** On the 4 by 4 plane with the odd rows missing: row 1 is rebuilt from
    rows 0, 0, 2, 3 and row 3 from rows 0, 2, 3, 3. *)
Lemma luma_missing_row_weighted_average_witness :
  exists dp' log,
    runDeintKernel (fun _ => 0) plane44 (replicate 16 0) 4 4 4 1 0
    = Ok (dp', log)
    /\ dp' !! Z.to_nat (1 * 4 + 2) = Some 11
    /\ dp' !! Z.to_nat (3 * 4 + 0) = Some 23.
Proof.
  destruct (luma_missing_row_weighted_average (fun _ => 0) plane44
              (replicate 16 0) 4 4 4 1)
    as (dp' & log & Hrun & Hval).
  - solve_plane_ok.
  - vm_compute. lia.
  - exists dp', log. split; [exact Hrun|]. split.
    + exact (Hval 2 1 ltac:(lia) ltac:(lia) eq_refl).
    + exact (Hval 0 3 ltac:(lia) ltac:(lia) eq_refl).
Defined.

(** C4. For every row [y] whose parity is not the missing one (even rows
    when [useTop] is set, odd rows otherwise) and every column [x < w], the
    destination sample equals the source sample. *)
Theorem present_row_copied
    stale (sp dp : list Z) w h stride useTop isChroma :
  plane_ok sp w h stride ->
  (Z.to_nat (stride * h) <= length dp)%nat ->
  exists dp' log,
    runDeintKernel stale sp dp w h stride useTop isChroma = Ok (dp', log)
    /\ forall x y, 0 <= x < w -> 0 <= y < h ->
       Z.odd y = (useTop =? 0) ->
       dp' !! Z.to_nat (y * stride + x) = sp !! Z.to_nat (y * stride + x)
       /\ is_Some (sp !! Z.to_nat (y * stride + x)).
Proof.
  intros Hok Hdp.
  destruct (runDeintKernel_spec stale sp dp w h stride useTop isChroma Hok Hdp)
    as (dp' & log & Hrun & _ & _ & Hval & _).
  exists dp', log. split; [exact Hrun|].
  intros x y Hx Hy Hpar.
  pose proof (present_of_parity useTop y (proj1 Hy) Hpar) as Hmiss.
  destruct (Hval x y Hx Hy) as [-> _].
  unfold spec_pixel. rewrite Hmiss.
  rewrite (sample_lookup sp w h stride Hok y x Hy Hx). eauto.
Qed.

(** On a padded 3 by 4 plane with the even rows missing, the odd rows 1 and
    3 come back as they were. *)
Lemma present_row_copied_witness :
  exists dp' log,
    runDeintKernel (fun _ => 0) plane34s (replicate 16 0) 3 4 4 0 1
    = Ok (dp', log)
    /\ dp' !! Z.to_nat (1 * 4 + 1) = Some 20
    /\ dp' !! Z.to_nat (3 * 4 + 2) = Some 5.
Proof.
  destruct (present_row_copied (fun _ => 0) plane34s (replicate 16 0)
              3 4 4 0 1)
    as (dp' & log & Hrun & Hval).
  - solve_plane_ok.
  - vm_compute. lia.
  - exists dp', log. split; [exact Hrun|]. split.
    + exact (proj1 (Hval 1 1 ltac:(lia) ltac:(lia) eq_refl)).
    + exact (proj1 (Hval 2 3 ltac:(lia) ltac:(lia) eq_refl)).
Defined.

(** C5. For every chroma row [y] of the missing parity (odd rows when
    [useTop] is set, even rows otherwise) and every column [x < w], the
    destination sample is [(v0 + v1 + 1) / 2] with [v0] the sample at row
    [max (y-1) 0] and [v1] the sample at row [min (y+1) (h-1)]. *)
Theorem chroma_missing_row_two_tap_average
    stale (sp dp : list Z) w h stride useTop isChroma :
  plane_ok sp w h stride ->
  (Z.to_nat (stride * h) <= length dp)%nat ->
  isChroma <> 0 ->
  exists dp' log,
    runDeintKernel stale sp dp w h stride useTop isChroma = Ok (dp', log)
    /\ forall x y, 0 <= x < w -> 0 <= y < h ->
       Z.odd y = negb (useTop =? 0) ->
       let v0 := sample sp stride (Z.max (y - 1) 0) x in
       let v1 := sample sp stride (Z.min (y + 1) (h - 1)) x in
       dp' !! Z.to_nat (y * stride + x) = Some ((v0 + v1 + 1) / 2).
Proof.
  intros Hok Hdp Hc.
  destruct (runDeintKernel_spec stale sp dp w h stride useTop isChroma Hok Hdp)
    as (dp' & log & Hrun & _ & _ & Hval & _).
  exists dp', log. split; [exact Hrun|].
  intros x y Hx Hy Hpar v0 v1.
  pose proof (missing_of_parity useTop y (proj1 Hy) Hpar) as Hmiss.
  destruct (Hval x y Hx Hy) as [-> _].
  unfold spec_pixel. rewrite Hmiss.
  destruct (Z.eqb_spec isChroma 0); [contradiction|]. reflexivity.
Qed.

(** On a padded 3 by 4 plane with the odd rows missing: row 1 is the
    average of rows 0 and 2, and row 3, the last, of rows 2 and 3. *)
Lemma chroma_missing_row_two_tap_average_witness :
  exists dp' log,
    runDeintKernel (fun _ => 0) plane34s (replicate 16 0) 3 4 4 1 1
    = Ok (dp', log)
    /\ dp' !! Z.to_nat (1 * 4 + 2) = Some 50
    /\ dp' !! Z.to_nat (3 * 4 + 0) = Some 158.
Proof.
  destruct (chroma_missing_row_two_tap_average (fun _ => 0) plane34s
              (replicate 16 0) 3 4 4 1 1)
    as (dp' & log & Hrun & Hval).
  - solve_plane_ok.
  - vm_compute. lia.
  - lia.
  - exists dp', log. split; [exact Hrun|]. split.
    + exact (Hval 2 1 ltac:(lia) ltac:(lia) eq_refl).
    + exact (Hval 0 3 ltac:(lia) ltac:(lia) eq_refl).
Defined.

(** C6. With [0 < w <= stride] and [h >= 1], a launch over a plane of
    [stride * h] bytes faults nowhere and every offset it reads or writes
    lies in [[0, stride * h)]; each pixel of the plane is written. A thread
    whose coordinates are outside the plane returns before any access; a
    thread inside the plane reads only inside the plane, whatever its row,
    then writes its own pixel. Reads go to the device copy of the source,
    which the host plane fills entirely. *)
Theorem kernel_accesses_stay_in_plane
    stale (sp dp : list Z) w h stride useTop isChroma :
  plane_ok sp w h stride ->
  (Z.to_nat (stride * h) <= length dp)%nat ->
  (exists dp' log,
     runDeintKernel stale sp dp w h stride useTop isChroma = Ok (dp', log)
     /\ Forall (fun a => 0 <= access_off a < stride * h) log
     /\ forall x y, 0 <= x < w -> 0 <= y < h -> Wr (y * stride + x) ∈ log)
  /\ (forall st x y,
        x >= w \/ y >= h ->
        deintPixel sp w h stride useTop isChroma x y st = Ok (tt, st))
  /\ (forall st x y,
        length (dev_dst st) = Z.to_nat (stride * h) ->
        0 <= x < w -> 0 <= y < h ->
        exists v reads,
          deintPixel sp w h stride useTop isChroma x y st
          = Ok (tt, mkDev (<[Z.to_nat (y * stride + x) := v]> (dev_dst st))
                          (dev_log st ++ reads ++ [Wr (y * stride + x)]))
          /\ Forall (fun a => 0 <= access_off a < stride * h) reads
          /\ 0 <= y * stride + x < stride * h)
  /\ cudaMemcpy (cudaMalloc stale (stride * h)) sp (stride * h)
     = Ok (take (Z.to_nat (stride * h)) sp).
Proof.
  intros Hok Hdp. split; [|split; [|split]].
  - destruct (runDeintKernel_spec stale sp dp w h stride useTop isChroma Hok Hdp)
      as (dp' & log & Hrun & _ & Hlog & Hval & _).
    exists dp', log. split; [exact Hrun|]. split; [exact Hlog|].
    intros x y Hx Hy. apply (Hval x y Hx Hy).
  - intros st x y Hout. now apply deintPixel_skip.
  - intros st x y Hlen Hx Hy.
    destruct (deintPixel_spec sp w h stride useTop isChroma Hok x y st Hx Hy Hlen)
      as (tr & Hrun & Htr).
    eexists _, tr. split; [exact Hrun|]. split; [exact Htr|].
    apply (offset_in_plane sp w h stride Hok y x Hy Hx).
  - pose proof (ok_len _ _ _ _ Hok) as Hlen.
    rewrite cudaMemcpy_ok by (rewrite ?length_cudaMalloc; lia).
    rewrite drop_ge by (rewrite length_cudaMalloc; lia).
    now rewrite app_nil_r.
Qed.

Lemma kernel_accesses_stay_in_plane_witness :
  (exists dp' log,
     runDeintKernel (fun _ => 0) plane34 (replicate 16 0) 3 4 4 1 0
     = Ok (dp', log)
     /\ Forall (fun a => 0 <= access_off a < 4 * 4) log
     /\ forall x y, 0 <= x < 3 -> 0 <= y < 4 -> Wr (y * 4 + x) ∈ log)
  /\ (forall st x y,
        x >= 3 \/ y >= 4 ->
        deintPixel plane34 3 4 4 1 0 x y st = Ok (tt, st))
  /\ (forall st x y,
        length (dev_dst st) = Z.to_nat (4 * 4) ->
        0 <= x < 3 -> 0 <= y < 4 ->
        exists v reads,
          deintPixel plane34 3 4 4 1 0 x y st
          = Ok (tt, mkDev (<[Z.to_nat (y * 4 + x) := v]> (dev_dst st))
                          (dev_log st ++ reads ++ [Wr (y * 4 + x)]))
          /\ Forall (fun a => 0 <= access_off a < 4 * 4) reads
          /\ 0 <= y * 4 + x < 4 * 4)
  /\ cudaMemcpy (cudaMalloc (fun _ => 0) (4 * 4)) plane34 (4 * 4)
     = Ok (take (Z.to_nat (4 * 4)) plane34).
Proof.
  apply (kernel_accesses_stay_in_plane (fun _ => 0) plane34
           (replicate 16 0) 3 4 4 1 0).
  - solve_plane_ok.
  - vm_compute. lia.
Defined.

(** C7. With every source sample in [[0, 255]], the luma loop ends with
    weight 10 and a sum such that [sum + 5] is at most 2555; no signed
    operation of the thread leaves the range of [int]; the luma result
    [(sum + 5) / 10] and the chroma result [(v0 + v1 + 1) / 2] lie in
    [[0, 255]], so the conversion to [uint8_t] leaves them unchanged. *)
Theorem samples_stay_in_byte_range
    (sp : list Z) w h stride useTop isChroma x y st :
  plane_ok sp w h stride ->
  0 <= x < w -> 0 <= y < h ->
  length (dev_dst st) = Z.to_nat (stride * h) ->
  (exists sum st',
     lumaLoop sp h stride 5 x y (-3) 0 0 st = Ok ((sum, 10), st')
     /\ 0 <= sum /\ sum + 5 <= 2555
     /\ 0 <= (sum + 5) / 10 <= 255
     /\ to_uint8 ((sum + 5) / 10) = (sum + 5) / 10)
  /\ (let v0 := sample sp stride (Z.max (y - 1) 0) x in
      let v1 := sample sp stride (Z.min (y + 1) (h - 1)) x in
      0 <= v0 + v1 + 1 <= 511
      /\ 0 <= (v0 + v1 + 1) / 2 <= 255
      /\ to_uint8 ((v0 + v1 + 1) / 2) = (v0 + v1 + 1) / 2)
  /\ (exists v st',
        deintPixel sp w h stride useTop isChroma x y st = Ok (tt, st')
        /\ dev_dst st' = <[Z.to_nat (y * stride + x) := v]> (dev_dst st)
        /\ 0 <= v <= 255).
Proof.
  intros Hok Hx Hy Hlen. split; [|split].
  - pose proof (spec_luma_sum_range sp w h stride Hok x y) as Hs.
    pose proof (spec_luma_byte sp w h stride Hok x y) as Hb.
    unfold is_byte, spec_luma in Hb.
    eexists _, _. split; [apply (lumaLoop_spec sp w h stride Hok); assumption|].
    split; [lia|]. split; [lia|]. split; [exact Hb|].
    now apply to_uint8_small.
  - intros v0 v1.
    pose proof (sample_byte sp w h stride Hok (Z.max (y - 1) 0) x) as H0.
    pose proof (sample_byte sp w h stride Hok (Z.min (y + 1) (h - 1)) x) as H1.
    pose proof (spec_chroma_byte sp w h stride Hok x y) as Hb.
    unfold is_byte, spec_chroma in *. fold v0 v1 in Hb, H0, H1.
    split; [lia|]. split; [exact Hb|]. now apply to_uint8_small.
  - destruct (deintPixel_spec sp w h stride useTop isChroma Hok x y st Hx Hy Hlen)
      as (tr & Hrun & _).
    eexists _, _. split; [exact Hrun|]. split; [reflexivity|].
    unfold spec_pixel.
    destruct (missing useTop y); [destruct (isChroma =? 0)|].
    + apply (spec_luma_byte sp w h stride Hok).
    + apply (spec_chroma_byte sp w h stride Hok).
    + apply (sample_byte sp w h stride Hok).
Qed.

Lemma samples_stay_in_byte_range_witness :
  (exists sum st',
     lumaLoop plane34 4 4 5 2 3 (-3) 0 0 (mkDev (replicate 16 0) [])
     = Ok ((sum, 10), st')
     /\ 0 <= sum /\ sum + 5 <= 2555
     /\ 0 <= (sum + 5) / 10 <= 255
     /\ to_uint8 ((sum + 5) / 10) = (sum + 5) / 10)
  /\ (let v0 := sample plane34 4 (Z.max (3 - 1) 0) 2 in
      let v1 := sample plane34 4 (Z.min (3 + 1) (4 - 1)) 2 in
      0 <= v0 + v1 + 1 <= 511
      /\ 0 <= (v0 + v1 + 1) / 2 <= 255
      /\ to_uint8 ((v0 + v1 + 1) / 2) = (v0 + v1 + 1) / 2)
  /\ (exists v st',
        deintPixel plane34 3 4 4 1 0 2 3 (mkDev (replicate 16 0) [])
        = Ok (tt, st')
        /\ dev_dst st' = <[Z.to_nat (3 * 4 + 2) := v]> (replicate 16 0)
        /\ 0 <= v <= 255).
Proof.
  apply (samples_stay_in_byte_range plane34 3 4 4 1 0 2 3
           (mkDev (replicate 16 0) [])).
  - solve_plane_ok.
  - lia.
  - lia.
  - reflexivity.
Defined.

(** ** The loop over the planes *)

Lemma getPlane_ok (f : VSFrame) plane p :
  0 <= plane -> f !! Z.to_nat plane = Some p -> getPlane f plane = Ok p.
Proof.
  intros Hp Hl. unfold getPlane.
  destruct (Z.ltb_spec plane 0); [lia|]. now rewrite Hl.
Qed.

(** The loop handles every listed plane, once each, and leaves the other
    planes of the destination frame alone. *)
Lemma processPlanes_spec stale src top planes :
  NoDup planes -> Forall (fun p => 0 <= p) planes ->
  forall dst,
  Forall (plane_ready src dst) planes ->
  exists dst',
    processPlanes stale src top planes dst = Ok dst'
    /\ (forall q, 0 <= q -> q ∉ planes ->
        dst' !! Z.to_nat q = dst !! Z.to_nat q)
    /\ Forall (plane_done src dst' top) planes.
Proof.
  induction 1 as [|p planes Hnotin Hnodup IH]; intros Hpos dst Hready.
  - exists dst. split; [reflexivity|]. split; [reflexivity|constructor].
  - apply Forall_cons in Hpos as [Hp Hpos].
    apply Forall_cons in Hready as [(s & t & Hs & Ht & Hok & Hroom) Hready].
    pose proof (ok_stride _ _ _ _ Hok) as Hsmax.
    pose proof (ok_w _ _ _ _ Hok) as Hw.
    assert (Hstride : to_int (p_stride s) = p_stride s).
    { apply to_int_small. rewrite INT_MIN_eq. lia. }
    destruct (runDeintKernel_spec stale (p_data s) (p_data t) (p_width s)
                (p_height s) (p_stride s) (Z.b2z top) (Z.b2z (p >? 0))
                Hok Hroom)
      as (dp' & log & Hrun & Hlen & _ & Hval & _).
    set (dst1 := <[Z.to_nat p := setPlaneData t dp']> dst).
    assert (Hother : forall q, 0 <= q -> q <> p ->
                     dst1 !! Z.to_nat q = dst !! Z.to_nat q).
    { intros q Hq Hne. subst dst1. apply list_lookup_insert_ne. lia. }
    assert (Hself : dst1 !! Z.to_nat p = Some (setPlaneData t dp')).
    { subst dst1. apply list_lookup_insert_eq.
      now apply lookup_lt_Some in Ht. }
    destruct (IH Hpos dst1) as (dst' & Hloop & Hkeep & Hdone).
    { rewrite Forall_forall in Hready, Hpos. apply Forall_forall.
      intros q Hq. destruct (Hready q Hq) as (s' & t' & Hs' & Ht' & Hrest).
      exists s', t'. split; [exact Hs'|]. split; [|exact Hrest].
      rewrite Hother; [exact Ht'|now apply Hpos|].
      intros ->. contradiction. }
    exists dst'. split; [|split].
    + cbn [processPlanes].
      erewrite result_bind_ok by (apply getPlane_ok; eassumption).
      erewrite result_bind_ok by (apply getPlane_ok; eassumption).
      rewrite Hstride.
      erewrite result_bind_ok by exact Hrun.
      cbv beta iota. exact Hloop.
    + intros q Hq Hnin. apply not_elem_of_cons in Hnin as [Hne Hnin].
      rewrite Hkeep by assumption. now apply Hother.
    + apply Forall_cons. split; [|exact Hdone].
      exists s, (setPlaneData t dp'). split; [exact Hs|]. split.
      * rewrite Hkeep by assumption. exact Hself.
      * intros x y Hx Hy. cbn [setPlaneData p_data].
        apply (Hval x y Hx Hy).
Qed.

(** Once the source frame is there, the callback returns a frame in which
    every plane holds the specified values. *)
Lemma cudaDeintGetFrame_ready stale allocFrame d n k :
  srcN d n = Ok k ->
  let src := node_frame (node d) k in
  let fmt := format (vi d) in
  let dst0 := allocFrame fmt (width (vi d)) (height (vi d)) src in
  Forall (plane_ready src dst0) (seqZ 0 (numPlanes fmt)) ->
  exists dst,
    cudaDeintGetFrame stale allocFrame n arAllFramesReady d
    = Ok (d, [getFrameFilter k;
              newVideoFrame fmt (width (vi d)) (height (vi d));
              freeFrame k], Some dst)
    /\ Forall (plane_done src dst (useTop d n)) (seqZ 0 (numPlanes fmt)).
Proof.
  intros Hs src fmt dst0 Hready.
  destruct (processPlanes_spec stale src (useTop d n)
              (seqZ 0 (numPlanes fmt)) (NoDup_seqZ _ _)
              ltac:(apply Forall_forall; intros p Hp;
                    apply elem_of_seqZ in Hp; lia)
              dst0 Hready)
    as (dst & Hloop & _ & Hdone).
  exists dst. split; [|exact Hdone].
  unfold cudaDeintGetFrame. rewrite Hs.
  cbn [mbind Result_bind]. fold src fmt dst0.
  now rewrite Hloop.
Qed.

(** ** The frame callback: claims *)

Lemma srcN_double d n :
  mode d = 0 -> 0 <= n <= INT_MAX -> srcN d n = Ok (n / 2).
Proof.
  intros Hm Hn. unfold srcN. rewrite Hm. cbn [Z.eqb].
  now apply int_div_ok.
Qed.

Lemma useTop_double d n :
  mode d = 0 -> 0 <= n ->
  useTop d n = Bool.eqb (n mod 2 =? 0) (tff d =? 1).
Proof.
  intros Hm Hn. unfold useTop. rewrite Hm. cbn [Z.eqb].
  now rewrite Z.rem_mod_nonneg by lia.
Qed.

Lemma missing_b2z b y :
  0 <= y -> missing (Z.b2z b) y = if b then Z.odd y else Z.even y.
Proof. intros Hy. rewrite missing_parity by assumption. now destruct b. Qed.

(** C1. In double-rate mode ([mode = 0]), the callback for output frame [n]
    requests and then fetches source frame [floor (n / 2)]; the missing
    rows of output [n] are the odd rows exactly when
    [(n mod 2 = 0) = (tff = 1)], the even rows otherwise; the outputs [2k]
    and [2k+1] share source frame [k] and have opposite missing rows. On
    well-formed frames the callback returns the frame rebuilt from source
    frame [floor (n / 2)] with those missing rows. *)
Theorem double_rate_source_and_parity stale allocFrame d n :
  mode d = 0 -> 0 <= n <= INT_MAX ->
  let top := Bool.eqb (n mod 2 =? 0) (tff d =? 1) in
  let src := node_frame (node d) (n / 2) in
  let fmt := format (vi d) in
  let dst0 := allocFrame fmt (width (vi d)) (height (vi d)) src in
  cudaDeintGetFrame stale allocFrame n arInitial d
  = Ok (d, [requestFrameFilter (n / 2)], None)
  /\ cudaDeintGetFrame stale allocFrame n arAllFramesReady d
     = (dst ← processPlanes stale src top (seqZ 0 (numPlanes fmt)) dst0;
        Ok (d, [getFrameFilter (n / 2);
                newVideoFrame fmt (width (vi d)) (height (vi d));
                freeFrame (n / 2)], Some dst))
  /\ (Forall (plane_ready src dst0) (seqZ 0 (numPlanes fmt)) ->
      exists dst,
        cudaDeintGetFrame stale allocFrame n arAllFramesReady d
        = Ok (d, [getFrameFilter (n / 2);
                  newVideoFrame fmt (width (vi d)) (height (vi d));
                  freeFrame (n / 2)], Some dst)
        /\ Forall (plane_done src dst top) (seqZ 0 (numPlanes fmt)))
  /\ (forall y, 0 <= y ->
      missing (Z.b2z (useTop d n)) y = if top then Z.odd y else Z.even y)
  /\ (forall k, 0 <= k -> 2 * k + 1 <= INT_MAX ->
      srcN d (2 * k) = Ok k /\ srcN d (2 * k + 1) = Ok k
      /\ forall y, 0 <= y ->
         missing (Z.b2z (useTop d (2 * k + 1))) y
         = negb (missing (Z.b2z (useTop d (2 * k))) y)).
Proof.
  intros Hm Hn top src fmt dst0.
  pose proof (srcN_double d n Hm Hn) as Hs.
  pose proof (useTop_double d n Hm (proj1 Hn)) as Ht. fold top in Ht.
  split; [|split; [|split; [|split]]].
  - unfold cudaDeintGetFrame. now rewrite Hs.
  - unfold cudaDeintGetFrame. rewrite Hs, Ht. reflexivity.
  - intros Hready. rewrite <- Ht.
    now apply (cudaDeintGetFrame_ready stale allocFrame d n (n / 2) Hs).
  - intros y Hy. rewrite Ht. now apply missing_b2z.
  - intros k Hk Hmax.
    rewrite !srcN_double by (try assumption; lia).
    split; [|split].
    + f_equal. rewrite Z.mul_comm. apply Z.div_mul. lia.
    + f_equal. rewrite Z.mul_comm, Z.add_comm.
      rewrite Z.div_add by lia. reflexivity.
    + intros y Hy. rewrite !missing_b2z by assumption.
      rewrite !useTop_double by (try assumption; lia).
      replace ((2 * k + 1) mod 2) with 1
        by (rewrite Z.mul_comm, Z.add_comm, Z.mod_add by lia; reflexivity).
      replace ((2 * k) mod 2) with 0
        by (rewrite Z.mul_comm, Z.mod_mul by lia; reflexivity).
      cbn [Z.eqb]. rewrite <- Z.negb_odd.
      destruct (tff d =? 1), (Z.odd y); reflexivity.
Qed.

Ltac solve_plane_ready :=
  apply Forall_cons_2; [|apply Forall_nil_2];
  eexists _, _; split; [reflexivity|]; split; [reflexivity|];
  cbn [p_data p_width p_height p_stride]; split;
  [solve_plane_ok | vm_compute; lia].

Lemma double_rate_source_and_parity_witness :
  let d := mkData clip100 (mkVideoInfo (mkFormat 1) 48 1 4 4 200) 1 0 in
  cudaDeintGetFrame (fun _ => 0) zeroFrame 5 arInitial d
  = Ok (d, [requestFrameFilter 2], None)
  /\ (exists dst,
        cudaDeintGetFrame (fun _ => 0) zeroFrame 5 arAllFramesReady d
        = Ok (d, [getFrameFilter 2; newVideoFrame (mkFormat 1) 4 4;
                  freeFrame 2], Some dst)
        /\ Forall (plane_done (node_frame clip100 2) dst false) [0])
  /\ (forall y, 0 <= y -> missing (Z.b2z (useTop d 5)) y = Z.even y)
  /\ srcN d 4 = Ok 2 /\ srcN d 5 = Ok 2.
Proof.
  intros d.
  destruct (double_rate_source_and_parity (fun _ => 0) zeroFrame d 5)
    as (Hreq & _ & Hready & Hmiss & Hpair).
  - reflexivity.
  - rewrite INT_MAX_eq. lia.
  - split; [exact Hreq|]. split; [|split].
    + apply Hready. solve_plane_ready.
    + exact Hmiss.
    + destruct (Hpair 2) as (H4 & H5 & _); [lia|rewrite INT_MAX_eq; lia|].
      split; [exact H4|exact H5].
Defined.

(** C3. In single-rate mode ([mode = 1]), the callback for output frame [n]
    requests and then fetches source frame [n]; the missing rows are the
    same for every output frame: the odd rows when [tff = 1] (top field
    first), the even rows when [tff = 0] (bottom field first). On
    well-formed frames the callback returns the frame rebuilt from source
    frame [n] with those missing rows. *)
Theorem single_rate_source_and_parity stale allocFrame d n :
  mode d = 1 ->
  let src := node_frame (node d) n in
  let fmt := format (vi d) in
  let dst0 := allocFrame fmt (width (vi d)) (height (vi d)) src in
  cudaDeintGetFrame stale allocFrame n arInitial d
  = Ok (d, [requestFrameFilter n], None)
  /\ cudaDeintGetFrame stale allocFrame n arAllFramesReady d
     = (dst ← processPlanes stale src (tff d =? 1) (seqZ 0 (numPlanes fmt))
                dst0;
        Ok (d, [getFrameFilter n;
                newVideoFrame fmt (width (vi d)) (height (vi d));
                freeFrame n], Some dst))
  /\ (Forall (plane_ready src dst0) (seqZ 0 (numPlanes fmt)) ->
      exists dst,
        cudaDeintGetFrame stale allocFrame n arAllFramesReady d
        = Ok (d, [getFrameFilter n;
                  newVideoFrame fmt (width (vi d)) (height (vi d));
                  freeFrame n], Some dst)
        /\ Forall (plane_done src dst (tff d =? 1)) (seqZ 0 (numPlanes fmt)))
  /\ (forall n', useTop d n' = useTop d n)
  /\ (tff d = 1 -> forall y, 0 <= y ->
      missing (Z.b2z (useTop d n)) y = Z.odd y)
  /\ (tff d = 0 -> forall y, 0 <= y ->
      missing (Z.b2z (useTop d n)) y = Z.even y).
Proof.
  intros Hm src fmt dst0.
  assert (Hs : srcN d n = Ok n) by (unfold srcN; now rewrite Hm).
  assert (Ht : forall m, useTop d m = (tff d =? 1))
    by (intros m; unfold useTop; now rewrite Hm).
  split; [|split; [|split; [|split; [|split]]]].
  - unfold cudaDeintGetFrame. now rewrite Hs.
  - unfold cudaDeintGetFrame. rewrite Hs, Ht. reflexivity.
  - intros Hready. rewrite <- (Ht n).
    now apply (cudaDeintGetFrame_ready stale allocFrame d n n Hs).
  - intros n'. now rewrite !Ht.
  - intros Htff y Hy. rewrite Ht, Htff. now apply missing_b2z.
  - intros Htff y Hy. rewrite Ht, Htff. now apply missing_b2z.
Qed.

Lemma single_rate_source_and_parity_witness :
  let d := mkData clip100 (node_vi clip100) 1 1 in
  cudaDeintGetFrame (fun _ => 0) zeroFrame 7 arInitial d
  = Ok (d, [requestFrameFilter 7], None)
  /\ (exists dst,
        cudaDeintGetFrame (fun _ => 0) zeroFrame 7 arAllFramesReady d
        = Ok (d, [getFrameFilter 7; newVideoFrame (mkFormat 1) 4 4;
                  freeFrame 7], Some dst)
        /\ Forall (plane_done (node_frame clip100 7) dst true) [0])
  /\ (forall n', useTop d n' = useTop d 7)
  /\ (forall y, 0 <= y -> missing (Z.b2z (useTop d 7)) y = Z.odd y).
Proof.
  intros d.
  destruct (single_rate_source_and_parity (fun _ => 0) zeroFrame d 7)
    as (Hreq & _ & Hready & Hconst & Hodd & _).
  - reflexivity.
  - split; [exact Hreq|]. split; [|split].
    + apply Hready. solve_plane_ready.
    + exact Hconst.
    + now apply Hodd.
Defined.

(** ** The constructor: claims *)

Lemma mapGetNode_inv m key index nd err :
  mapGetNode m key index = (nd, err) ->
  (err = 0 /\ exists n, nd = Some n) \/ (err <> 0 /\ nd = None).
Proof.
  unfold mapGetNode, peUnset, peIndex, peType, peSuccess.
  destruct (m !! key) as [vs|]; [|intros [= <- <-]; right; split; [lia|easy]].
  destruct (index <? 0); [intros [= <- <-]; right; split; [lia|easy]|].
  destruct (vs !! Z.to_nat index) as [[n|i|s]|]; intros [= <- <-];
    first [left; split; [reflexivity|eauto] | right; split; [lia|easy]].
Qed.

Lemma mapGetNode_unset (m : VSMap) key index :
  m !! key = None -> mapGetNode m key index = (None, peUnset).
Proof. intros H. unfold mapGetNode. now rewrite H. Qed.

Lemma mapGetInt_unset (m : VSMap) key index :
  m !! key = None -> mapGetInt m key index = (0, peUnset).
Proof. intros H. unfold mapGetInt. now rewrite H. Qed.

(** The constructor once its three arguments have been read. *)
Lemma cudaDeintCreate_unfold in_ nd vt et vm em :
  mapGetNode in_ "clip" 0 = (Some nd, 0) ->
  mapGetInt in_ "tff" 0 = (vt, et) ->
  mapGetInt in_ "mode" 0 = (vm, em) ->
  let tff := if negb (et =? 0) then 1 else to_int vt in
  let mode := if negb (em =? 0) then 0 else to_int vm in
  let up := node_vi nd in
  cudaDeintCreate in_
  = (vi ← (if mode =? 0 then
             fps ← int64_mul (fpsNum up) 2;
             frames ← int_mul (numFrames up) 2;
             mret (mkVideoInfo (format up) fps (fpsDen up) (width up)
                     (height up) frames)
           else mret up);
     Ok (outFilter "CudaDeinterlacer" vi fmParallel [(nd, rpGeneral)]
           (mkData nd vi tff mode))).
Proof.
  intros Hc Ht Hm. unfold cudaDeintCreate. rewrite Hc, Ht, Hm. reflexivity.
Qed.

(** With a clip and representable products the constructor creates a
    filter, whatever the mode. *)
Lemma create_filter_exists in_ nd vt et vm em :
  mapGetNode in_ "clip" 0 = (Some nd, 0) ->
  mapGetInt in_ "tff" 0 = (vt, et) ->
  mapGetInt in_ "mode" 0 = (vm, em) ->
  INT64_MIN <= fpsNum (node_vi nd) * 2 <= INT64_MAX ->
  INT_MIN <= numFrames (node_vi nd) * 2 <= INT_MAX ->
  exists vi',
    cudaDeintCreate in_
    = Ok (outFilter "CudaDeinterlacer" vi' fmParallel [(nd, rpGeneral)]
            (mkData nd vi'
               (if negb (et =? 0) then 1 else to_int vt)
               (if negb (em =? 0) then 0 else to_int vm))).
Proof.
  intros Hc Ht Hm Hf Hn.
  rewrite (cudaDeintCreate_unfold in_ nd vt et vm em Hc Ht Hm).
  cbv zeta.
  destruct ((if negb (em =? 0) then 0 else to_int vm) =? 0).
  - unfold int64_mul, int_mul.
    rewrite (checked64_ok _ Hf), (checked_ok _ Hn). eexists. reflexivity.
  - eexists. reflexivity.
Qed.

(** C8. The published descriptor is the upstream one, except that with
    [mode = 0] the frame-rate numerator and the frame count are each
    multiplied by 2 (the products being representable); with any other mode
    both are published unchanged. With [mode = 0], 100 frames and a
    numerator of 24 the descriptor has 200 frames and a numerator of 48. *)
Theorem create_publishes_descriptor in_ nd vt et vm em :
  mapGetNode in_ "clip" 0 = (Some nd, 0) ->
  mapGetInt in_ "tff" 0 = (vt, et) ->
  mapGetInt in_ "mode" 0 = (vm, em) ->
  let tff := if negb (et =? 0) then 1 else to_int vt in
  let mode := if negb (em =? 0) then 0 else to_int vm in
  let up := node_vi nd in
  let doubled :=
    mkVideoInfo (format up) (fpsNum up * 2) (fpsDen up) (width up)
                (height up) (numFrames up * 2) in
  (mode = 0 ->
   INT64_MIN <= fpsNum up * 2 <= INT64_MAX ->
   INT_MIN <= numFrames up * 2 <= INT_MAX ->
   cudaDeintCreate in_
   = Ok (outFilter "CudaDeinterlacer" doubled fmParallel [(nd, rpGeneral)]
           (mkData nd doubled tff mode)))
  /\ (mode <> 0 ->
      cudaDeintCreate in_
      = Ok (outFilter "CudaDeinterlacer" up fmParallel [(nd, rpGeneral)]
              (mkData nd up tff mode)))
  /\ (mode = 0 -> numFrames up = 100 -> fpsNum up = 24 ->
      exists vi' d,
        cudaDeintCreate in_
        = Ok (outFilter "CudaDeinterlacer" vi' fmParallel [(nd, rpGeneral)] d)
        /\ vi d = vi' /\ numFrames vi' = 200 /\ fpsNum vi' = 48).
Proof.
  intros Hc Ht Hm tff mode up doubled.
  pose proof (cudaDeintCreate_unfold in_ nd vt et vm em Hc Ht Hm) as E.
  cbv zeta in E. fold tff mode up in E.
  assert (Hdouble :
    mode = 0 ->
    INT64_MIN <= fpsNum up * 2 <= INT64_MAX ->
    INT_MIN <= numFrames up * 2 <= INT_MAX ->
    cudaDeintCreate in_
    = Ok (outFilter "CudaDeinterlacer" doubled fmParallel [(nd, rpGeneral)]
            (mkData nd doubled tff mode))).
  { intros H0 Hf Hn. rewrite E, H0. cbn [Z.eqb].
    unfold int64_mul, int_mul.
    rewrite (checked64_ok _ Hf), (checked_ok _ Hn). rewrite <- H0. reflexivity. }
  split; [exact Hdouble|]. split.
  - intros Hne. rewrite E.
    destruct (Z.eqb_spec mode 0); [contradiction|]. reflexivity.
  - intros H0 Hn Hf. exists doubled, (mkData nd doubled tff mode).
    split; [|split; [reflexivity|]].
    + apply Hdouble; [assumption|rewrite Hf|rewrite Hn]; now vm_compute.
    + subst doubled. cbn [numFrames fpsNum]. rewrite Hn, Hf. now split.
Qed.

Lemma create_publishes_descriptor_witness :
  cudaDeintCreate args_clip_only
  = Ok (outFilter "CudaDeinterlacer" (mkVideoInfo (mkFormat 1) 48 1 4 4 200)
          fmParallel [(clip100, rpGeneral)]
          (mkData clip100 (mkVideoInfo (mkFormat 1) 48 1 4 4 200) 1 0)).
Proof.
  apply (proj1 (create_publishes_descriptor args_clip_only clip100
                  0 peUnset 0 peUnset eq_refl eq_refl eq_refl)).
  - reflexivity.
  - vm_compute. split; discriminate.
  - vm_compute. split; discriminate.
Defined.

(** What a successful construction of a filter went through. *)
Lemma cudaDeintCreate_filter_inv in_ name vi' fm deps d vt et vm em :
  cudaDeintCreate in_ = Ok (outFilter name vi' fm deps d) ->
  mapGetInt in_ "tff" 0 = (vt, et) ->
  mapGetInt in_ "mode" 0 = (vm, em) ->
  exists nd,
    mapGetNode in_ "clip" 0 = (Some nd, 0)
    /\ d = mkData nd vi'
             (if negb (et =? 0) then 1 else to_int vt)
             (if negb (em =? 0) then 0 else to_int vm).
Proof.
  intros Hrun Ht Hm.
  destruct (mapGetNode in_ "clip" 0) as [ndo err] eqn:Hc.
  destruct (mapGetNode_inv _ _ _ _ _ Hc) as [[-> [nd ->]]|[Herr ->]].
  - exists nd. split; [reflexivity|].
    rewrite (cudaDeintCreate_unfold in_ nd vt et vm em Hc Ht Hm) in Hrun.
    apply result_bind_inv in Hrun as (v & _ & Hrun).
    now injection Hrun as _ <- _ _ <-.
  - unfold cudaDeintCreate in Hrun. rewrite Hc in Hrun.
    destruct (Z.eqb_spec err 0); [contradiction|]. discriminate Hrun.
Qed.

(** C9, as the claim states it, fails: integers outside the documented
    ranges are stored as supplied. *)
Lemma config_out_of_range_accepted :
  cudaDeintCreate args_out_of_range
  = Ok (outFilter "CudaDeinterlacer" (node_vi clip100) fmParallel
          [(clip100, rpGeneral)] (mkData clip100 (node_vi clip100) 7 5))
  /\ ~ config_in_range (mkData clip100 (node_vi clip100) 7 5).
Proof.
  split; [reflexivity|].
  intros [[H|H] _]; discriminate H.
Qed.

(** C9, amended. A constructed instance holds the supplied [mode] and [tff]
    converted to [int], or the defaults 0 and 1 where the argument is not
    readable; nothing is rejected or normalised, so the configuration is in
    the documented ranges exactly when the supplied values are. The frame
    callback behaves on any instance as on the normalised one ([mode <> 0]
    as single-rate, [tff <> 1] as bottom field first), and leaves the
    instance as it found it. *)
Theorem config_holds_supplied_values
    in_ name vi' fm deps d vt et vm em :
  cudaDeintCreate in_ = Ok (outFilter name vi' fm deps d) ->
  mapGetInt in_ "tff" 0 = (vt, et) ->
  mapGetInt in_ "mode" 0 = (vm, em) ->
  mode d = (if negb (em =? 0) then 0 else to_int vm)
  /\ tff d = (if negb (et =? 0) then 1 else to_int vt)
  /\ (config_in_range d <->
      (em <> 0 \/ to_int vm = 0 \/ to_int vm = 1)
      /\ (et <> 0 \/ to_int vt = 0 \/ to_int vt = 1))
  /\ config_in_range (normalised d)
  /\ (forall n, srcN d n = srcN (normalised d) n
                /\ useTop d n = useTop (normalised d) n)
  /\ (forall stale allocFrame n reason d' calls f,
        cudaDeintGetFrame stale allocFrame n reason d = Ok (d', calls, f) ->
        d' = d).
Proof.
  intros Hrun Ht Hm.
  destruct (cudaDeintCreate_filter_inv _ _ _ _ _ _ _ _ _ _ Hrun Ht Hm)
    as (nd & _ & ->).
  cbn [mode tff]. split; [reflexivity|]. split; [reflexivity|].
  split; [|split; [|split]].
  - unfold config_in_range. cbn [mode tff].
    destruct (Z.eqb_spec em 0), (Z.eqb_spec et 0); cbn [negb]; lia.
  - unfold config_in_range, normalised. cbn [mode tff].
    split.
    + match goal with |- context [if ?b then 0 else 1] => destruct b end; auto.
    + match goal with |- context [if ?b then 1 else 0] => destruct b end; auto.
  - intros n. unfold srcN, useTop, normalised. cbn [mode tff].
    set (m := if negb (em =? 0) then 0 else to_int vm).
    set (t := if negb (et =? 0) then 1 else to_int vt).
    destruct (Z.eqb_spec m 0), (Z.eqb_spec t 1); split; reflexivity.
  - intros stale allocFrame n reason d' calls f Hget.
    unfold cudaDeintGetFrame in Hget.
    destruct reason.
    + now injection Hget as <- _ _.
    + apply result_bind_inv in Hget as (s & _ & Hget).
      now injection Hget as <- _ _.
    + apply result_bind_inv in Hget as (s & _ & Hget).
      apply result_bind_inv in Hget as (fr & _ & Hget).
      now injection Hget as <- _ _.
Qed.

Lemma config_holds_supplied_values_witness :
  let d := mkData clip100 (node_vi clip100) 7 5 in
  mode d = 5
  /\ tff d = 7
  /\ (config_in_range d <->
      (0 <> 0 \/ to_int 5 = 0 \/ to_int 5 = 1)
      /\ (0 <> 0 \/ to_int 7 = 0 \/ to_int 7 = 1))
  /\ config_in_range (normalised d)
  /\ (forall n, srcN d n = srcN (normalised d) n
                /\ useTop d n = useTop (normalised d) n)
  /\ (forall stale allocFrame n reason d' calls f,
        cudaDeintGetFrame stale allocFrame n reason d = Ok (d', calls, f) ->
        d' = d).
Proof.
  exact (config_holds_supplied_values args_out_of_range "CudaDeinterlacer"
           (node_vi clip100) fmParallel [(clip100, rpGeneral)]
           (mkData clip100 (node_vi clip100) 7 5) 7 0 5 0
           eq_refl eq_refl eq_refl).
Defined.

(** C10. Without a [clip] argument the constructor sets the error
    "CudaDeinterlacer: clip is required." and creates no filter, so no
    frame callback exists for the instance. With a clip it creates the
    filter, and an absent [mode] or [tff] takes the default 0 or 1. *)
Theorem create_requires_clip (in_ : VSMap) :
  (in_ !! "clip" = None ->
   cudaDeintCreate in_ = Ok (outError "CudaDeinterlacer: clip is required.")
   /\ forall name vi' fm deps d,
        cudaDeintCreate in_ <> Ok (outFilter name vi' fm deps d))
  /\ (forall nd rest,
        in_ !! "clip" = Some (vNode nd :: rest) ->
        INT64_MIN <= fpsNum (node_vi nd) * 2 <= INT64_MAX ->
        INT_MIN <= numFrames (node_vi nd) * 2 <= INT_MAX ->
        exists vi' t m,
          cudaDeintCreate in_
          = Ok (outFilter "CudaDeinterlacer" vi' fmParallel [(nd, rpGeneral)]
                  (mkData nd vi' t m))
          /\ (in_ !! "mode" = None -> m = 0)
          /\ (in_ !! "tff" = None -> t = 1)).
Proof.
  split.
  - intros Hc.
    assert (E : cudaDeintCreate in_
                = Ok (outError "CudaDeinterlacer: clip is required.")).
    { unfold cudaDeintCreate. now rewrite (mapGetNode_unset _ _ _ Hc). }
    split; [exact E|]. intros name vi' fm deps d. now rewrite E.
  - intros nd rest Hc Hf Hn.
    assert (Hnode : mapGetNode in_ "clip" 0 = (Some nd, 0)).
    { unfold mapGetNode. now rewrite Hc. }
    destruct (mapGetInt in_ "tff" 0) as [vt et] eqn:Ht.
    destruct (mapGetInt in_ "mode" 0) as [vm em] eqn:Hm.
    destruct (create_filter_exists in_ nd vt et vm em Hnode Ht Hm Hf Hn)
      as (vi' & E).
    exists vi', (if negb (et =? 0) then 1 else to_int vt),
           (if negb (em =? 0) then 0 else to_int vm).
    split; [exact E|]. split.
    + intros Hnone. rewrite (mapGetInt_unset _ _ _ Hnone) in Hm.
      now injection Hm as <- <-.
    + intros Hnone. rewrite (mapGetInt_unset _ _ _ Hnone) in Ht.
      now injection Ht as <- <-.
Qed.

Lemma create_requires_clip_witness :
  cudaDeintCreate args_no_clip
  = Ok (outError "CudaDeinterlacer: clip is required.")
  /\ exists vi',
       cudaDeintCreate args_clip_only
       = Ok (outFilter "CudaDeinterlacer" vi' fmParallel
               [(clip100, rpGeneral)] (mkData clip100 vi' 1 0)).
Proof.
  split.
  - apply (proj1 (create_requires_clip args_no_clip)). reflexivity.
  - destruct (proj2 (create_requires_clip args_clip_only) clip100 [])
      as (vi' & t & m & E & Hm & Ht).
    + reflexivity.
    + vm_compute. split; discriminate.
    + vm_compute. split; discriminate.
    + exists vi'. rewrite <- (Hm eq_refl), <- (Ht eq_refl). exact E.
Defined.

(** * Further properties of the code *)

(** ** The launch: what the threads leave alone *)

(** A launch changes the destination only at offsets of pixels. *)
Lemma run_threads_frame (src : list Z) w h stride useTop isChroma sched :
  plane_ok src w h stride ->
  Forall thread_ok sched ->
  forall st st',
  length (dev_dst st) = Z.to_nat (stride * h) ->
  run_threads
    (fun b t => deintKernel src w h stride useTop isChroma b (mkDim3 16 16) t)
    sched st = Ok (tt, st') ->
  forall o,
  (forall x y, 0 <= x < w -> 0 <= y < h -> o <> Z.to_nat (y * stride + x)) ->
  dev_dst st' !! o = dev_dst st !! o.
Proof.
  intros Hok. induction 1 as [|[b t] sched Hbt Hrest IH];
    intros st st' Hlen Hrun o Ho.
  - now injection Hrun as <-.
  - change (run_threads ?k ((b, t) :: sched) st)
      with ((k b t ≫= fun _ => run_threads k sched) st) in Hrun.
    destruct (deintKernel_thread src w h stride useTop isChroma Hok b t st
                Hbt Hlen) as [(Hx & Hy & tr & Hthread & _)|[_ Hthread]].
    + erewrite dev_bind_ok in Hrun by exact Hthread.
      match type of Hrun with run_threads _ _ ?s = _ => set (st1 := s) in * end.
      assert (Hlen1 : length (dev_dst st1) = Z.to_nat (stride * h))
        by (subst st1; cbn [dev_dst]; now rewrite length_insert).
      rewrite (IH st1 st' Hlen1 Hrun o Ho).
      subst st1. cbn [dev_dst]. apply list_lookup_insert_ne.
      intros E. now apply (Ho _ _ Hx Hy).
    + erewrite dev_bind_ok in Hrun by exact Hthread.
      exact (IH _ _ Hlen Hrun o Ho).
Qed.

(** The wrapper in terms of the launch it makes. *)
Lemma runDeintKernel_run stale (sp dp : list Z) w h stride useTop isChroma :
  plane_ok sp w h stride ->
  (Z.to_nat (stride * h) <= length dp)%nat ->
  exists st',
    run_threads
      (fun b t => deintKernel (take (Z.to_nat (stride * h)) sp) w h stride
                    useTop isChroma b (mkDim3 16 16) t)
      (grid_threads (mkDim3 ((w + 15) / 16) ((h + 15) / 16)) (mkDim3 16 16))
      (mkDev (cudaMalloc stale (stride * h)) []) = Ok (tt, st')
    /\ length (dev_dst st') = Z.to_nat (stride * h)
    /\ runDeintKernel stale sp dp w h stride useTop isChroma
       = Ok (dev_dst st' ++ drop (Z.to_nat (stride * h)) dp, dev_log st').
Proof.
  intros Hok Hdp.
  pose proof Hok as [Hw Hh Hs Hwm Hhm Hlen Hb].
  pose proof (plane_ok_take sp w h stride Hok) as Hok'.
  rewrite INT_MAX_eq in Hs, Hwm, Hhm.
  destruct (run_threads_spec (take (Z.to_nat (stride * h)) sp) w h stride
              useTop isChroma Hok'
              _ (grid_threads_ok w h ltac:(lia) Hh
                   ltac:(rewrite INT_MAX_eq; lia) ltac:(rewrite INT_MAX_eq; lia))
              (mkDev (cudaMalloc stale (stride * h)) []))
    as (st' & Hrun & Hlen' & _).
  { cbn [dev_dst]. apply length_cudaMalloc. }
  exists st'. split; [exact Hrun|]. split; [exact Hlen'|].
  unfold runDeintKernel. rewrite (frame_size_eq sp w h stride Hok).
  erewrite result_bind_ok
    by (apply cudaMemcpy_ok; rewrite ?length_cudaMalloc; lia).
  rewrite (drop_ge (cudaMalloc stale (stride * h)))
    by (rewrite length_cudaMalloc; lia).
  rewrite app_nil_r.
  erewrite result_bind_ok
    by (apply int_add_ok; rewrite INT_MIN_eq, INT_MAX_eq; lia).
  erewrite result_bind_ok by (apply int_div_ok; rewrite ?INT_MAX_eq; lia).
  erewrite result_bind_ok
    by (apply int_add_ok; rewrite INT_MIN_eq, INT_MAX_eq; lia).
  erewrite result_bind_ok by (apply int_div_ok; rewrite ?INT_MAX_eq; lia).
  assert (Hgx : 0 <= (w + 15) / 16 <= w + 15).
  { split; [apply Z.div_pos; lia|]. apply Z.div_le_upper_bound; lia. }
  assert (Hgy : 0 <= (h + 15) / 16 <= h + 15).
  { split; [apply Z.div_pos; lia|]. apply Z.div_le_upper_bound; lia. }
  rewrite !to_uint_small by lia.
  rewrite (to_size_t_small stride) by lia.
  unfold launch.
  erewrite result_bind_ok by exact Hrun.
  cbv beta iota.
  erewrite result_bind_ok by (apply cudaMemcpy_ok; lia).
  rewrite take_ge by lia. reflexivity.
Qed.

Lemma lookup_cudaMalloc stale n (i : nat) :
  (i < Z.to_nat n)%nat -> cudaMalloc stale n !! i = Some (stale i).
Proof.
  intros Hi. unfold cudaMalloc.
  rewrite list_lookup_fmap, lookup_seq_lt by assumption. reflexivity.
Qed.

(** X1. The padding bytes of every row (columns [w <= x < stride]) are never
    written by the kernel, yet the copy back covers the whole
    [stride * h] bytes: the host destination receives there whatever the
    fresh device allocation held. *)
Theorem padding_receives_stale_device_memory
    stale (sp dp : list Z) w h stride useTop isChroma :
  plane_ok sp w h stride ->
  (Z.to_nat (stride * h) <= length dp)%nat ->
  exists dp' log,
    runDeintKernel stale sp dp w h stride useTop isChroma = Ok (dp', log)
    /\ forall x y, w <= x < stride -> 0 <= y < h ->
       dp' !! Z.to_nat (y * stride + x)
       = Some (stale (Z.to_nat (y * stride + x))).
Proof.
  intros Hok Hdp.
  destruct (runDeintKernel_run stale sp dp w h stride useTop isChroma Hok Hdp)
    as (st' & Hrun & Hlen' & Hres).
  exists (dev_dst st' ++ drop (Z.to_nat (stride * h)) dp), (dev_log st').
  split; [exact Hres|].
  intros x y Hx Hy.
  pose proof Hok as [Hw Hh Hs Hwm Hhm _ _].
  assert (Hin : 0 <= y * stride + x < stride * h).
  { assert (y * stride <= (h - 1) * stride)
      by (apply Z.mul_le_mono_nonneg_r; lia).
    assert (0 <= y * stride) by (apply Z.mul_nonneg_nonneg; lia). lia. }
  rewrite lookup_app_l by lia.
  assert (Hlen0 : length (dev_dst (mkDev (cudaMalloc stale (stride * h)) []))
                  = Z.to_nat (stride * h))
    by (cbn [dev_dst]; apply length_cudaMalloc).
  rewrite (run_threads_frame _ w h stride useTop isChroma _
             (plane_ok_take sp w h stride Hok)
             (grid_threads_ok w h ltac:(lia) Hh Hwm Hhm) _ _ Hlen0 Hrun).
  - cbn [dev_dst]. apply lookup_cudaMalloc. lia.
  - intros x' y' Hx' Hy' E.
    assert (0 <= y' * stride + x').
    { assert (0 <= y' * stride) by (apply Z.mul_nonneg_nonneg; lia). lia. }
    apply Z2Nat.inj in E; [|lia..].
    apply offset_inj in E; lia.
Qed.

Lemma padding_receives_stale_device_memory_witness :
  exists dp' log,
    runDeintKernel (fun i => Z.of_nat i + 100) plane34 (replicate 16 0)
      3 4 4 1 0 = Ok (dp', log)
    /\ forall x y, 3 <= x < 4 -> 0 <= y < 4 ->
       dp' !! Z.to_nat (y * 4 + x)
       = Some ((fun i => Z.of_nat i + 100) (Z.to_nat (y * 4 + x))).
Proof.
  apply (padding_receives_stale_device_memory (fun i => Z.of_nat i + 100)
           plane34 (replicate 16 0) 3 4 4 1 0).
  - solve_plane_ok.
  - vm_compute. lia.
Defined.

(** X2. The wrapper overwrites exactly the first [stride * h] bytes of the
    host destination: the buffer keeps its length and every byte from
    offset [stride * h] on keeps its value. *)
Theorem destination_tail_untouched
    stale (sp dp : list Z) w h stride useTop isChroma :
  plane_ok sp w h stride ->
  (Z.to_nat (stride * h) <= length dp)%nat ->
  exists dp' log,
    runDeintKernel stale sp dp w h stride useTop isChroma = Ok (dp', log)
    /\ length dp' = length dp
    /\ drop (Z.to_nat (stride * h)) dp' = drop (Z.to_nat (stride * h)) dp.
Proof.
  intros Hok Hdp.
  destruct (runDeintKernel_run stale sp dp w h stride useTop isChroma Hok Hdp)
    as (st' & _ & Hlen' & Hres).
  exists (dev_dst st' ++ drop (Z.to_nat (stride * h)) dp), (dev_log st').
  split; [exact Hres|]. split.
  - rewrite length_app, length_drop. lia.
  - rewrite drop_app_length'; [reflexivity|now symmetry].
Qed.

Lemma destination_tail_untouched_witness :
  exists dp' log,
    runDeintKernel (fun _ => 0) plane44 (replicate 16 1 ++ [7; 8; 9])
      4 4 4 1 0 = Ok (dp', log)
    /\ length dp' = length (replicate 16 1 ++ [7; 8; 9])
    /\ drop (Z.to_nat (4 * 4)) dp'
       = drop (Z.to_nat (4 * 4)) (replicate 16 1 ++ [7; 8; 9]).
Proof.
  apply (destination_tail_untouched (fun _ => 0) plane44
           (replicate 16 1 ++ [7; 8; 9]) 4 4 4 1 0).
  - solve_plane_ok.
  - vm_compute. lia.
Defined.

(** ** The kernel: the values it computes *)

(** X3. A rebuilt sample never leaves the range of the samples it is
    computed from: a luma result lies between the least and the greatest
    of its four taps, a chroma result between its two taps. *)
Theorem interpolated_value_between_taps
    stale (sp dp : list Z) w h stride useTop isChroma :
  plane_ok sp w h stride ->
  (Z.to_nat (stride * h) <= length dp)%nat ->
  exists dp' log,
    runDeintKernel stale sp dp w h stride useTop isChroma = Ok (dp', log)
    /\ forall x y, 0 <= x < w -> 0 <= y < h -> missing useTop y = true ->
       exists v,
         dp' !! Z.to_nat (y * stride + x) = Some v
         /\ if isChroma =? 0 then
              let tap := fun dy => sample sp stride (clamp_row h (y + dy)) x in
              Z.min (Z.min (tap (-3)) (tap (-1))) (Z.min (tap 1) (tap 3)) <= v
              /\ v <= Z.max (Z.max (tap (-3)) (tap (-1)))
                            (Z.max (tap 1) (tap 3))
            else
              let v0 := sample sp stride (Z.max (y - 1) 0) x in
              let v1 := sample sp stride (Z.min (y + 1) (h - 1)) x in
              Z.min v0 v1 <= v <= Z.max v0 v1.
Proof.
  intros Hok Hdp.
  destruct (runDeintKernel_spec stale sp dp w h stride useTop isChroma Hok Hdp)
    as (dp' & log & Hrun & _ & _ & Hval & _).
  exists dp', log. split; [exact Hrun|].
  intros x y Hx Hy Hmiss.
  destruct (Hval x y Hx Hy) as [Hv _].
  eexists. split; [exact Hv|].
  unfold spec_pixel. rewrite Hmiss.
  destruct (isChroma =? 0); cbv iota.
  - unfold spec_luma, spec_luma_sum.
    change (y - 3) with (y + -3). change (y - 1) with (y + -1).
    generalize (sample sp stride (clamp_row h (y + -3)) x)
               (sample sp stride (clamp_row h (y + -1)) x)
               (sample sp stride (clamp_row h (y + 1)) x)
               (sample sp stride (clamp_row h (y + 3)) x).
    intros a b c e. split.
    + apply Z.div_le_lower_bound; lia.
    + apply Z.lt_succ_r, Z.div_lt_upper_bound; lia.
  - unfold spec_chroma.
    generalize (sample sp stride (Z.max (y - 1) 0) x)
               (sample sp stride (Z.min (y + 1) (h - 1)) x).
    intros a b. split.
    + apply Z.div_le_lower_bound; lia.
    + apply Z.lt_succ_r, Z.div_lt_upper_bound; lia.
Qed.

Lemma interpolated_value_between_taps_witness :
  exists dp' log,
    runDeintKernel (fun _ => 0) plane34 (replicate 16 0) 3 4 4 0 0
    = Ok (dp', log)
    /\ forall x y, 0 <= x < 3 -> 0 <= y < 4 -> missing 0 y = true ->
       exists v,
         dp' !! Z.to_nat (y * 4 + x) = Some v
         /\ (let tap := fun dy => sample plane34 4 (clamp_row 4 (y + dy)) x in
             Z.min (Z.min (tap (-3)) (tap (-1))) (Z.min (tap 1) (tap 3)) <= v
             /\ v <= Z.max (Z.max (tap (-3)) (tap (-1)))
                           (Z.max (tap 1) (tap 3))).
Proof.
  apply (interpolated_value_between_taps (fun _ => 0) plane34
           (replicate 16 0) 3 4 4 0 0).
  - solve_plane_ok.
  - vm_compute. lia.
Defined.

(** X4. At the two edges of a luma plane the row being rebuilt is itself a
    tap: the offsets that leave the plane are clamped onto it, so at row 0
    the source's own row 0 enters with weight 5 (offsets -3 and -1), and at
    row [h-1] the source's own row [h-1] does (offsets +1 and +3). *)
Theorem luma_edge_rows_reuse_own_row
    stale (sp dp : list Z) w h stride useTop :
  plane_ok sp w h stride ->
  (Z.to_nat (stride * h) <= length dp)%nat ->
  exists dp' log,
    runDeintKernel stale sp dp w h stride useTop 0 = Ok (dp', log)
    /\ (missing useTop 0 = true ->
        forall x, 0 <= x < w ->
        dp' !! Z.to_nat (0 * stride + x)
        = Some ((5 * sample sp stride 0 x
                 + 4 * sample sp stride (Z.min 1 (h - 1)) x
                 + sample sp stride (Z.min 3 (h - 1)) x + 5) / 10))
    /\ (missing useTop (h - 1) = true ->
        forall x, 0 <= x < w ->
        dp' !! Z.to_nat ((h - 1) * stride + x)
        = Some ((5 * sample sp stride (h - 1) x
                 + 4 * sample sp stride (Z.max (h - 2) 0) x
                 + sample sp stride (Z.max (h - 4) 0) x + 5) / 10)).
Proof.
  intros Hok Hdp.
  pose proof (ok_h _ _ _ _ Hok) as Hh.
  destruct (runDeintKernel_spec stale sp dp w h stride useTop 0 Hok Hdp)
    as (dp' & log & Hrun & _ & _ & Hval & _).
  exists dp', log. split; [exact Hrun|]. split.
  - intros Hmiss x Hx.
    destruct (Hval x 0 Hx ltac:(lia)) as [-> _].
    unfold spec_pixel. rewrite Hmiss. cbn [Z.eqb].
    unfold spec_luma, spec_luma_sum, clamp_row.
    replace (Z.max 0 (Z.min (0 - 1) (h - 1))) with 0 by lia.
    replace (Z.max 0 (Z.min (0 - 3) (h - 1))) with 0 by lia.
    replace (Z.max 0 (Z.min (0 + 1) (h - 1))) with (Z.min 1 (h - 1)) by lia.
    replace (Z.max 0 (Z.min (0 + 3) (h - 1))) with (Z.min 3 (h - 1)) by lia.
    do 2 f_equal. lia.
  - intros Hmiss x Hx.
    destruct (Hval x (h - 1) Hx ltac:(lia)) as [-> _].
    unfold spec_pixel. rewrite Hmiss. cbn [Z.eqb].
    unfold spec_luma, spec_luma_sum, clamp_row.
    replace (Z.max 0 (Z.min (h - 1 - 1) (h - 1))) with (Z.max (h - 2) 0) by lia.
    replace (Z.max 0 (Z.min (h - 1 - 3) (h - 1))) with (Z.max (h - 4) 0) by lia.
    replace (Z.max 0 (Z.min (h - 1 + 1) (h - 1))) with (h - 1) by lia.
    replace (Z.max 0 (Z.min (h - 1 + 3) (h - 1))) with (h - 1) by lia.
    do 2 f_equal. lia.
Qed.

Lemma luma_edge_rows_reuse_own_row_witness :
  exists dp' log,
    runDeintKernel (fun _ => 0) plane44 (replicate 16 0) 4 4 4 0 0
    = Ok (dp', log)
    /\ (forall x, 0 <= x < 4 ->
        dp' !! Z.to_nat (0 * 4 + x)
        = Some ((5 * sample plane44 4 0 x
                 + 4 * sample plane44 4 (Z.min 1 (4 - 1)) x
                 + sample plane44 4 (Z.min 3 (4 - 1)) x + 5) / 10)).
Proof.
  destruct (luma_edge_rows_reuse_own_row (fun _ => 0) plane44
              (replicate 16 0) 4 4 4 0)
    as (dp' & log & Hrun & Htop & _).
  - solve_plane_ok.
  - vm_compute. lia.
  - exists dp', log. split; [exact Hrun|]. apply Htop. reflexivity.
Defined.

(** X5. A plane of a single row comes out as it went in: whatever the
    parity and whether luma or chroma, every tap is clamped onto row 0 and
    the rounded average of equal samples is the sample. *)
Theorem single_row_plane_is_copied
    stale (sp dp : list Z) w stride useTop isChroma :
  plane_ok sp w 1 stride ->
  (Z.to_nat (stride * 1) <= length dp)%nat ->
  exists dp' log,
    runDeintKernel stale sp dp w 1 stride useTop isChroma = Ok (dp', log)
    /\ forall x, 0 <= x < w ->
       dp' !! Z.to_nat (0 * stride + x) = sp !! Z.to_nat (0 * stride + x).
Proof.
  intros Hok Hdp.
  destruct (runDeintKernel_spec stale sp dp w 1 stride useTop isChroma Hok Hdp)
    as (dp' & log & Hrun & _ & _ & Hval & _).
  exists dp', log. split; [exact Hrun|].
  intros x Hx.
  destruct (Hval x 0 Hx ltac:(lia)) as [-> _].
  rewrite (sample_lookup sp w 1 stride Hok 0 x ltac:(lia) Hx).
  f_equal. unfold spec_pixel, spec_luma, spec_luma_sum, spec_chroma, clamp_row.
  change (Z.max 0 (Z.min (0 - 1) (1 - 1))) with 0.
  change (Z.max 0 (Z.min (0 - 3) (1 - 1))) with 0.
  change (Z.max 0 (Z.min (0 + 1) (1 - 1))) with 0.
  change (Z.max 0 (Z.min (0 + 3) (1 - 1))) with 0.
  change (Z.max (0 - 1) 0) with 0. change (Z.min (0 + 1) (1 - 1)) with 0.
  generalize (sample sp stride 0 x). intros v.
  destruct (missing useTop 0); [destruct (isChroma =? 0)|]; [| |reflexivity].
  - replace (4 * v + 4 * v + v + v + 5) with (5 + v * 10) by lia.
    rewrite Z.div_add by lia. reflexivity.
  - replace (v + v + 1) with (1 + v * 2) by lia.
    rewrite Z.div_add by lia. reflexivity.
Qed.

Lemma single_row_plane_is_copied_witness :
  exists dp' log,
    runDeintKernel (fun _ => 0) [5; 250; 17; 0] (replicate 4 9) 3 1 4 0 0
    = Ok (dp', log)
    /\ forall x, 0 <= x < 3 ->
       dp' !! Z.to_nat (0 * 4 + x) = [5; 250; 17; 0] !! Z.to_nat (0 * 4 + x).
Proof.
  apply (single_row_plane_is_copied (fun _ => 0) [5; 250; 17; 0]
           (replicate 4 9) 3 4 0 0).
  - solve_plane_ok.
  - vm_compute. lia.
Defined.

(** X6. A destination pixel depends on nothing but the source samples of
    its own column: two runs whose source planes agree on column [x] agree
    on column [x] of the result, whatever the other columns, the previous
    contents of the destination and the stale device memory. *)
Theorem output_column_depends_on_source_column
    stale1 stale2 (sp1 sp2 dp1 dp2 : list Z) w h stride useTop isChroma x :
  plane_ok sp1 w h stride -> plane_ok sp2 w h stride ->
  (Z.to_nat (stride * h) <= length dp1)%nat ->
  (Z.to_nat (stride * h) <= length dp2)%nat ->
  0 <= x < w ->
  (forall r, 0 <= r < h ->
   sp1 !! Z.to_nat (r * stride + x) = sp2 !! Z.to_nat (r * stride + x)) ->
  exists out1 log1 out2 log2,
    runDeintKernel stale1 sp1 dp1 w h stride useTop isChroma = Ok (out1, log1)
    /\ runDeintKernel stale2 sp2 dp2 w h stride useTop isChroma
       = Ok (out2, log2)
    /\ forall y, 0 <= y < h ->
       out1 !! Z.to_nat (y * stride + x) = out2 !! Z.to_nat (y * stride + x).
Proof.
  intros Hok1 Hok2 Hdp1 Hdp2 Hx Hcol.
  destruct (runDeintKernel_spec stale1 sp1 dp1 w h stride useTop isChroma
              Hok1 Hdp1) as (out1 & log1 & Hrun1 & _ & _ & Hval1 & _).
  destruct (runDeintKernel_spec stale2 sp2 dp2 w h stride useTop isChroma
              Hok2 Hdp2) as (out2 & log2 & Hrun2 & _ & _ & Hval2 & _).
  exists out1, log1, out2, log2. split; [exact Hrun1|]. split; [exact Hrun2|].
  intros y Hy.
  destruct (Hval1 x y Hx Hy) as [-> _]. destruct (Hval2 x y Hx Hy) as [-> _].
  pose proof (ok_h _ _ _ _ Hok1) as Hh.
  assert (Hs : forall r, 0 <= r < h ->
               sample sp1 stride r x = sample sp2 stride r x).
  { intros r Hr. unfold sample. now rewrite Hcol. }
  f_equal. unfold spec_pixel, spec_luma, spec_luma_sum, spec_chroma.
  rewrite !Hs; first [reflexivity | assumption | unfold clamp_row; lia | lia].
Qed.

Lemma output_column_depends_on_source_column_witness :
  exists out1 log1 out2 log2,
    runDeintKernel (fun _ => 1) plane34 (replicate 16 0) 3 4 4 1 0
    = Ok (out1, log1)
    /\ runDeintKernel (fun _ => 2)
         [ 0; 1; 2; 3;  40; 5; 6; 7;  80; 9; 10; 11;  120; 13; 14; 15]
         (replicate 16 9) 3 4 4 1 0
       = Ok (out2, log2)
    /\ forall y, 0 <= y < 4 ->
       out1 !! Z.to_nat (y * 4 + 0) = out2 !! Z.to_nat (y * 4 + 0).
Proof.
  apply (output_column_depends_on_source_column (fun _ => 1) (fun _ => 2)
           plane34
           [ 0; 1; 2; 3;  40; 5; 6; 7;  80; 9; 10; 11;  120; 13; 14; 15]
           (replicate 16 0) (replicate 16 9) 3 4 4 1 0 0).
  - solve_plane_ok.
  - solve_plane_ok.
  - vm_compute. lia.
  - vm_compute. lia.
  - lia.
  - intros r Hr.
    assert (r = 0 \/ r = 1 \/ r = 2 \/ r = 3) as [->|[->|[->| ->]]] by lia;
      reflexivity.
Defined.

(** ** The kernel: what a thread writes *)

Lemma lift_inv {A} (r : Result A) st a st' :
  lift r st = Ok (a, st') -> r = Ok a /\ st' = st.
Proof. destruct r; cbn; [now intros [= -> ->]|discriminate]. Qed.

Lemma writes_app l1 l2 : writes (l1 ++ l2) = writes l1 ++ writes l2.
Proof. apply omap_app. Qed.

Lemma load_inv src off st v st' :
  load src off st = Ok (v, st') ->
  dev_dst st' = dev_dst st /\ writes (dev_log st') = writes (dev_log st).
Proof.
  unfold load. destruct (src !! Z.to_nat off); [|discriminate].
  intros [= _ <-]. cbn [dev_dst dev_log].
  rewrite writes_app. cbn. now rewrite app_nil_r.
Qed.

Lemma store_inv off v st st' :
  store off v st = Ok (tt, st') ->
  dev_dst st' = <[Z.to_nat off := v]> (dev_dst st)
  /\ writes (dev_log st') = writes (dev_log st) ++ [off].
Proof.
  unfold store. destruct (_ <? _)%nat; [|discriminate].
  intros [= <-]. cbn [dev_dst dev_log]. now rewrite writes_app.
Qed.

Lemma lumaLoop_inv src h stride fuel :
  forall x y dy sum weight st r st',
  lumaLoop src h stride fuel x y dy sum weight st = Ok (r, st') ->
  dev_dst st' = dev_dst st /\ writes (dev_log st') = writes (dev_log st).
Proof.
  induction fuel as [|fuel IH]; intros x y dy sum weight st r st' Hrun.
  - discriminate Hrun.
  - rewrite lumaLoop_S in Hrun.
    destruct (dy <=? 3); [|now injection Hrun as _ <-].
    apply dev_bind_inv in Hrun as (yy & s1 & H1 & Hrun).
    apply lift_inv in H1 as [_ ->]. cbv zeta in Hrun.
    apply dev_bind_inv in Hrun as (yy' & s2 & H2 & Hrun).
    assert (s2 = st) as ->.
    { destruct (_ >=? h); [now apply lift_inv in H2|now injection H2]. }
    apply dev_bind_inv in Hrun as (v & s3 & H3 & Hrun).
    apply load_inv in H3 as [Hd3 Hw3].
    apply dev_bind_inv in Hrun as (p & s4 & H4 & Hrun).
    apply lift_inv in H4 as [_ ->].
    apply dev_bind_inv in Hrun as (sum' & s5 & H5 & Hrun).
    apply lift_inv in H5 as [_ ->].
    apply dev_bind_inv in Hrun as (weight' & s6 & H6 & Hrun).
    apply lift_inv in H6 as [_ ->].
    apply dev_bind_inv in Hrun as (dy' & s7 & H7 & Hrun).
    apply lift_inv in H7 as [_ ->].
    apply IH in Hrun as [Hd Hw]. split; congruence.
Qed.

(** The writes of one thread. *)
Lemma deintPixel_writes
    (src : list Z) w h stride useTop isChroma x y st st' :
  deintPixel src w h stride useTop isChroma x y st = Ok (tt, st') ->
  st' = st
  \/ exists v,
       dev_dst st' = <[Z.to_nat (offset y stride x) := v]> (dev_dst st)
       /\ writes (dev_log st') = writes (dev_log st) ++ [offset y stride x].
Proof.
  unfold deintPixel. intros Hrun.
  destruct ((x >=? w) || (y >=? h)); [left; now injection Hrun|].
  right.
  destruct (negb (missing useTop y)); [|destruct (isChroma =? 0)].
  - apply dev_bind_inv in Hrun as (v & s1 & H1 & Hrun).
    apply load_inv in H1 as [Hd Hw].
    apply store_inv in Hrun as [Hd' Hw']. exists v. split; congruence.
  - apply dev_bind_inv in Hrun as ([sum weight] & s1 & H1 & Hrun).
    apply lumaLoop_inv in H1 as [Hd Hw]. cbv beta iota in Hrun.
    apply dev_bind_inv in Hrun as (a2 & s2 & H2 & Hrun).
    apply lift_inv in H2 as [_ ->].
    apply dev_bind_inv in Hrun as (a3 & s3 & H3 & Hrun).
    apply lift_inv in H3 as [_ ->].
    apply dev_bind_inv in Hrun as (a4 & s4 & H4 & Hrun).
    apply lift_inv in H4 as [_ ->].
    apply store_inv in Hrun as [Hd' Hw']. exists (to_uint8 a4). split; congruence.
  - apply dev_bind_inv in Hrun as (y0 & s1 & H1 & Hrun).
    assert (s1 = st) as ->.
    { destruct (y >? 0); [now apply lift_inv in H1|now injection H1]. }
    apply dev_bind_inv in Hrun as (yp & s2 & H2 & Hrun).
    apply lift_inv in H2 as [_ ->].
    apply dev_bind_inv in Hrun as (y1 & s3 & H3 & Hrun).
    assert (s3 = st) as ->.
    { destruct (yp <? h); [now injection H3|now apply lift_inv in H3]. }
    apply dev_bind_inv in Hrun as (v0 & s4 & H4 & Hrun).
    apply load_inv in H4 as [Hd4 Hw4].
    apply dev_bind_inv in Hrun as (v1 & s5 & H5 & Hrun).
    apply load_inv in H5 as [Hd5 Hw5].
    apply dev_bind_inv in Hrun as (a6 & s6 & H6 & Hrun).
    apply lift_inv in H6 as [_ ->].
    apply dev_bind_inv in Hrun as (a7 & s7 & H7 & Hrun).
    apply lift_inv in H7 as [_ ->].
    apply dev_bind_inv in Hrun as (a8 & s8 & H8 & Hrun).
    apply lift_inv in H8 as [_ ->].
    apply store_inv in Hrun as [Hd' Hw']. exists (to_uint8 a8). split; congruence.
Qed.

(** X7. Whatever its inputs, a thread that completes has changed at most
    the byte of its own pixel: the destination keeps its length, every
    offset other than [y * stride + x] (computed in [size_t]) keeps its
    value, and the thread has made at most one write, at that offset. *)
Theorem thread_writes_own_pixel_only
    (src : list Z) w h stride useTop isChroma x y st st' :
  deintPixel src w h stride useTop isChroma x y st = Ok (tt, st') ->
  length (dev_dst st') = length (dev_dst st)
  /\ (forall o, o <> Z.to_nat (offset y stride x) ->
      dev_dst st' !! o = dev_dst st !! o)
  /\ (writes (dev_log st') = writes (dev_log st)
      \/ writes (dev_log st') = writes (dev_log st) ++ [offset y stride x]).
Proof.
  intros Hrun.
  destruct (deintPixel_writes _ _ _ _ _ _ _ _ _ _ Hrun) as [->|(v & Hd & Hw)].
  - split; [reflexivity|]. split; [reflexivity|now left].
  - rewrite Hd. split; [apply length_insert|]. split; [|now right].
    intros o Ho. apply list_lookup_insert_ne. congruence.
Qed.

Lemma thread_writes_own_pixel_only_witness :
  let st := mkDev (replicate 16 0) [] in
  let st' := mkDev (<[5%nat := 52]> (replicate 16 0))
                   [Rd 1; Rd 1; Rd 9; Rd 13; Wr 5] in
  deintPixel plane34 3 4 4 1 0 1 1 st = Ok (tt, st')
  /\ length (dev_dst st') = length (dev_dst st)
  /\ (forall o, o <> Z.to_nat (offset 1 4 1) ->
      dev_dst st' !! o = dev_dst st !! o)
  /\ (writes (dev_log st') = writes (dev_log st)
      \/ writes (dev_log st') = writes (dev_log st) ++ [offset 1 4 1]).
Proof.
  intros st st'. split; [reflexivity|].
  apply (thread_writes_own_pixel_only plane34 3 4 4 1 0 1 1 st st').
  reflexivity.
Defined.

(** ** The launch: threads do not interfere *)

(** X8. No two threads of a launch write the same byte: for two distinct
    threads of the grid, an offset written by one is not written by the
    other. *)
Theorem distinct_threads_write_distinct_offsets
    (src dst1 dst2 : list Z) w h stride useTop isChroma b1 t1 b2 t2 :
  plane_ok src w h stride ->
  let grid := grid_threads (mkDim3 ((w + 15) / 16) ((h + 15) / 16))
                           (mkDim3 16 16) in
  (b1, t1) ∈ grid -> (b2, t2) ∈ grid -> (b1, t1) <> (b2, t2) ->
  length dst1 = Z.to_nat (stride * h) ->
  length dst2 = Z.to_nat (stride * h) ->
  exists st1 st2,
    deintKernel src w h stride useTop isChroma b1 (mkDim3 16 16) t1
      (mkDev dst1 []) = Ok (tt, st1)
    /\ deintKernel src w h stride useTop isChroma b2 (mkDim3 16 16) t2
         (mkDev dst2 []) = Ok (tt, st2)
    /\ forall o, o ∈ writes (dev_log st1) -> o ∉ writes (dev_log st2).
Proof.
  intros Hok grid Hin1 Hin2 Hne Hlen1 Hlen2.
  pose proof Hok as [Hw Hh _ Hwm Hhm _ _].
  pose proof (grid_threads_ok w h ltac:(lia) Hh Hwm Hhm) as Hall.
  rewrite Forall_forall in Hall.
  pose proof (Hall _ Hin1) as Hok1. pose proof (Hall _ Hin2) as Hok2.
  assert (Hwr : forall b t dst, thread_ok (b, t) ->
            length dst = Z.to_nat (stride * h) ->
            exists st',
              deintKernel src w h stride useTop isChroma b (mkDim3 16 16) t
                (mkDev dst []) = Ok (tt, st')
              /\ (writes (dev_log st') = []
                  \/ (0 <= dim_x b * 16 + dim_x t < w
                      /\ 0 <= dim_y b * 16 + dim_y t < h
                      /\ writes (dev_log st')
                         = [(dim_y b * 16 + dim_y t) * stride
                            + (dim_x b * 16 + dim_x t)]))).
  { intros b t dst Hbt Hlen.
    destruct (deintKernel_thread src w h stride useTop isChroma Hok b t
                (mkDev dst []) Hbt Hlen)
      as [(Hx & Hy & tr & Hthread & _)|[_ Hthread]].
    - eexists. split; [exact Hthread|]. right.
      split; [exact Hx|]. split; [exact Hy|].
      pose proof Hthread as Hpix. unfold deintKernel in Hpix.
      apply deintPixel_writes in Hpix as [Hsame|(v & _ & Hws)].
      + injection Hsame as _ Hlog. now destruct tr.
      + rewrite Hws. cbn [dev_log writes omap]. cbn [dim_x dim_y].
        destruct Hbt as [(? & ? & ?) (? & ? & ?)].
        rewrite !thread_coord by assumption.
        now destruct (offset_in_plane src w h stride Hok _ _ Hy Hx) as [-> _].
    - eexists. split; [exact Hthread|]. now left. }
  destruct (Hwr b1 t1 dst1 Hok1 Hlen1) as (st1 & Hrun1 & Hw1).
  destruct (Hwr b2 t2 dst2 Hok2 Hlen2) as (st2 & Hrun2 & Hw2).
  exists st1, st2. split; [exact Hrun1|]. split; [exact Hrun2|].
  intros o Ho1 Ho2.
  destruct Hw1 as [E1|(Hx1 & Hy1 & E1)]; rewrite E1 in Ho1;
    [now apply elem_of_nil in Ho1|].
  destruct Hw2 as [E2|(Hx2 & Hy2 & E2)]; rewrite E2 in Ho2;
    [now apply elem_of_nil in Ho2|].
  apply list_elem_of_singleton in Ho1, Ho2. subst o.
  apply offset_inj in Ho2 as [Ex Ey]; [|lia..].
  destruct Hok1 as [(_ & Ht1x & _) (_ & Ht1y & _)].
  destruct Hok2 as [(_ & Ht2x & _) (_ & Ht2y & _)].
  apply Hne.
  transitivity (thread_of_pixel (dim_x b1 * 16 + dim_x t1)
                                (dim_y b1 * 16 + dim_y t1)).
  - now apply thread_of_pixel_inv.
  - symmetry. now apply thread_of_pixel_inv.
Qed.

Lemma distinct_threads_write_distinct_offsets_witness :
  exists st1 st2,
    deintKernel plane44 4 4 4 1 0 (mkDim3 0 0) (mkDim3 16 16) (mkDim3 2 1)
      (mkDev (replicate 16 0) []) = Ok (tt, st1)
    /\ deintKernel plane44 4 4 4 1 0 (mkDim3 0 0) (mkDim3 16 16) (mkDim3 2 3)
         (mkDev (replicate 16 0) []) = Ok (tt, st2)
    /\ forall o, o ∈ writes (dev_log st1) -> o ∉ writes (dev_log st2).
Proof.
  apply (distinct_threads_write_distinct_offsets plane44 (replicate 16 0)
           (replicate 16 0) 4 4 4 1 0 (mkDim3 0 0) (mkDim3 2 1)
           (mkDim3 0 0) (mkDim3 2 3)).
  - solve_plane_ok.
  - apply elem_of_grid_threads. vm_compute. intuition discriminate.
  - apply elem_of_grid_threads. vm_compute. intuition discriminate.
  - discriminate.
  - reflexivity.
  - reflexivity.
Defined.

(** X9. The destination buffer a launch leaves does not depend on the
    order in which its threads run: every permutation of the grid's
    threads ends with the same buffer as the grid's own order. *)
Theorem launch_result_independent_of_schedule
    (src : list Z) w h stride useTop isChroma
    (sched : list (dim3 * dim3)) st :
  plane_ok src w h stride ->
  let grid := grid_threads (mkDim3 ((w + 15) / 16) ((h + 15) / 16))
                           (mkDim3 16 16) in
  let k := fun b t =>
    deintKernel src w h stride useTop isChroma b (mkDim3 16 16) t in
  sched ≡ₚ grid ->
  length (dev_dst st) = Z.to_nat (stride * h) ->
  exists st1 st2,
    run_threads k sched st = Ok (tt, st1)
    /\ run_threads k grid st = Ok (tt, st2)
    /\ dev_dst st1 = dev_dst st2.
Proof.
  intros Hok grid k Hperm Hlen.
  pose proof Hok as [Hw Hh _ Hwm Hhm _ _].
  pose proof (grid_threads_ok w h ltac:(lia) Hh Hwm Hhm) as Hgrid.
  fold grid in Hgrid.
  assert (Hsched : Forall thread_ok sched) by now rewrite Hperm.
  destruct (run_threads_spec src w h stride useTop isChroma Hok sched Hsched
              st Hlen) as (st1 & Hrun1 & _ & _ & Hval1 & _).
  destruct (run_threads_spec src w h stride useTop isChroma Hok grid Hgrid
              st Hlen) as (st2 & Hrun2 & _ & _ & Hval2 & _).
  exists st1, st2. split; [exact Hrun1|]. split; [exact Hrun2|].
  apply list_eq. intros i.
  set (x := Z.of_nat i mod stride). set (y := Z.of_nat i / stride).
  assert (Hxy : Z.of_nat i = y * stride + x).
  { subst x y. rewrite Z.mul_comm. apply Z.div_mod. lia. }
  assert (Hx0 : 0 <= x < stride) by (subst x; apply Z.mod_pos_bound; lia).
  assert (Hy0 : 0 <= y) by (subst y; apply Z.div_pos; lia).
  destruct (Z_lt_ge_dec x w) as [Hx|Hx]; [destruct (Z_lt_ge_dec y h) as [Hy|Hy]|].
  - replace i with (Z.to_nat (y * stride + x)) by lia.
    rewrite Hval1, Hval2; try lia; [reflexivity| |];
      left; [|rewrite Hperm]; apply grid_threads_cover; lia.
  - rewrite (run_threads_frame src w h stride useTop isChroma sched Hok Hsched
               st st1 Hlen Hrun1), (run_threads_frame src w h stride useTop
               isChroma grid Hok Hgrid st st2 Hlen Hrun2); [reflexivity| |];
      intros x' y' Hx' Hy' E;
      (assert (Z.of_nat i = y' * stride + x')
         by (assert (0 <= y' * stride) by (apply Z.mul_nonneg_nonneg; lia); lia));
      (assert (y * stride + x = y' * stride + x') as E' by lia);
      apply offset_inj in E'; lia.
  - rewrite (run_threads_frame src w h stride useTop isChroma sched Hok Hsched
               st st1 Hlen Hrun1), (run_threads_frame src w h stride useTop
               isChroma grid Hok Hgrid st st2 Hlen Hrun2); [reflexivity| |];
      intros x' y' Hx' Hy' E;
      (assert (Z.of_nat i = y' * stride + x')
         by (assert (0 <= y' * stride) by (apply Z.mul_nonneg_nonneg; lia); lia));
      (assert (y * stride + x = y' * stride + x') as E' by lia);
      apply offset_inj in E'; lia.
Qed.

Lemma launch_result_independent_of_schedule_witness :
  let grid := grid_threads (mkDim3 ((3 + 15) / 16) ((4 + 15) / 16))
                           (mkDim3 16 16) in
  let k := fun b t => deintKernel plane34 3 4 4 1 1 b (mkDim3 16 16) t in
  exists st1 st2,
    run_threads k (reverse grid) (mkDev (replicate 16 0) []) = Ok (tt, st1)
    /\ run_threads k grid (mkDev (replicate 16 0) []) = Ok (tt, st2)
    /\ dev_dst st1 = dev_dst st2.
Proof.
  intros grid k.
  apply (launch_result_independent_of_schedule plane34 3 4 4 1 1
           (reverse grid) (mkDev (replicate 16 0) [])).
  - solve_plane_ok.
  - apply reverse_Permutation.
  - reflexivity.
Defined.

(** ** The loop over the planes *)

Lemma processPlanes_rebuilds stale src top planes :
  NoDup planes -> Forall (fun p => 0 <= p) planes ->
  forall dst,
  Forall (plane_ready src dst) planes ->
  exists dst',
    processPlanes stale src top planes dst = Ok dst'
    /\ length dst' = length dst
    /\ (forall q, 0 <= q -> q ∉ planes ->
        dst' !! Z.to_nat q = dst !! Z.to_nat q)
    /\ Forall (plane_rebuilt src dst dst' top) planes.
Proof.
  induction 1 as [|p planes Hnotin Hnodup IH]; intros Hpos dst Hready.
  - exists dst. split; [reflexivity|]. split; [reflexivity|].
    split; [reflexivity|constructor].
  - apply Forall_cons in Hpos as [Hp Hpos].
    apply Forall_cons in Hready as [(s & t & Hs & Ht & Hok & Hroom) Hready].
    pose proof (ok_stride _ _ _ _ Hok) as Hsmax.
    pose proof (ok_w _ _ _ _ Hok) as Hw.
    assert (Hstride : to_int (p_stride s) = p_stride s).
    { apply to_int_small. rewrite INT_MIN_eq. lia. }
    destruct (runDeintKernel_spec stale (p_data s) (p_data t) (p_width s)
                (p_height s) (p_stride s) (Z.b2z top) (Z.b2z (p >? 0))
                Hok Hroom)
      as (dp' & log & Hrun & Hlen & _ & Hval & _).
    set (dst1 := <[Z.to_nat p := setPlaneData t dp']> dst).
    assert (Hother : forall q, 0 <= q -> q <> p ->
                     dst1 !! Z.to_nat q = dst !! Z.to_nat q).
    { intros q Hq Hne. subst dst1. apply list_lookup_insert_ne. lia. }
    assert (Hself : dst1 !! Z.to_nat p = Some (setPlaneData t dp')).
    { subst dst1. apply list_lookup_insert_eq.
      now apply lookup_lt_Some in Ht. }
    destruct (IH Hpos dst1) as (dst' & Hloop & Hlen' & Hkeep & Hdone).
    { rewrite Forall_forall in Hready, Hpos. apply Forall_forall.
      intros q Hq. destruct (Hready q Hq) as (s' & t' & Hs' & Ht' & Hrest).
      exists s', t'. split; [exact Hs'|]. split; [|exact Hrest].
      rewrite Hother; [exact Ht'|now apply Hpos|].
      intros ->. contradiction. }
    exists dst'. split; [|split; [|split]].
    + cbn [processPlanes].
      erewrite result_bind_ok by (apply getPlane_ok; eassumption).
      erewrite result_bind_ok by (apply getPlane_ok; eassumption).
      rewrite Hstride.
      erewrite result_bind_ok by exact Hrun.
      cbv beta iota. exact Hloop.
    + rewrite Hlen'. subst dst1. apply length_insert.
    + intros q Hq Hnin. apply not_elem_of_cons in Hnin as [Hne Hnin].
      rewrite Hkeep by assumption. now apply Hother.
    + apply Forall_cons. split.
      * exists s, t, (setPlaneData t dp').
        split; [exact Hs|]. split; [exact Ht|]. split.
        { rewrite Hkeep by assumption. exact Hself. }
        cbn [setPlaneData p_width p_height p_stride p_data].
        do 3 (split; [reflexivity|]). split; [exact Hlen|].
        intros x y Hx Hy. destruct (Hval x y Hx Hy) as [-> _].
        do 2 f_equal. destruct (Z.eqb_spec p 0) as [->|Hne]; [reflexivity|].
        destruct (Z.gtb_spec p 0); [reflexivity|lia].
      * rewrite Forall_forall in Hdone, Hpos. apply Forall_forall.
        intros q Hq.
        destruct (Hdone q Hq) as (s' & t1 & t' & Hs' & Ht1 & Hrest).
        exists s', t1, t'. split; [exact Hs'|]. split; [|exact Hrest].
        rewrite <- Hother; [exact Ht1|now apply Hpos|].
        intros ->. contradiction.
Qed.

(** X10. On well-formed frames the loop over the planes runs to the end
    and rebuilds every plane of the format, plane 0 with the luma formula
    and every later plane with the chroma formula. Each destination plane
    keeps its geometry and the size of its buffer, the frame keeps its
    number of planes, and planes beyond the format's count are left as
    they were. *)
Theorem plane_loop_rebuilds_every_plane stale (src dst : VSFrame) top n :
  Forall (plane_ready src dst) (seqZ 0 n) ->
  exists dst',
    processPlanes stale src top (seqZ 0 n) dst = Ok dst'
    /\ length dst' = length dst
    /\ (forall q, 0 <= q -> n <= q -> dst' !! Z.to_nat q = dst !! Z.to_nat q)
    /\ forall p, 0 <= p < n -> plane_rebuilt src dst dst' top p.
Proof.
  intros Hready.
  destruct (processPlanes_rebuilds stale src top (seqZ 0 n) (NoDup_seqZ _ _)
              ltac:(apply Forall_forall; intros p Hp;
                    apply elem_of_seqZ in Hp; lia)
              dst Hready)
    as (dst' & Hloop & Hlen & Hkeep & Hdone).
  exists dst'. split; [exact Hloop|]. split; [exact Hlen|]. split.
  - intros q Hq Hn. apply Hkeep; [exact Hq|].
    rewrite elem_of_seqZ. lia.
  - intros p Hp. rewrite Forall_forall in Hdone. apply Hdone.
    apply elem_of_seqZ. lia.
Qed.

Ltac solve_plane_ready_cons :=
  apply Forall_cons_2;
  [ eexists _, _; split; [reflexivity|]; split; [reflexivity|];
    cbn [p_data p_width p_height p_stride]; split;
    [solve_plane_ok | vm_compute; lia] |].

Lemma plane_loop_rebuilds_every_plane_witness :
  let dst := zeroFrame (mkFormat 3) 4 4 frame3 in
  exists dst',
    processPlanes (fun _ => 0) frame3 true (seqZ 0 3) dst = Ok dst'
    /\ length dst' = length dst
    /\ (forall q, 0 <= q -> 3 <= q -> dst' !! Z.to_nat q = dst !! Z.to_nat q)
    /\ forall p, 0 <= p < 3 -> plane_rebuilt frame3 dst dst' true p.
Proof.
  intros dst.
  apply (plane_loop_rebuilds_every_plane (fun _ => 0) frame3 dst true 3).
  change (seqZ 0 3) with [0; 1; 2].
  do 3 solve_plane_ready_cons. apply Forall_nil_2.
Defined.

(** ** The frame callback: the two outputs of one source frame *)

(** X11. In double-rate mode the two outputs made from source frame [k]
    keep between them every row of it: output [2k] holds unchanged the
    rows of the first field (the even rows when [tff = 1], the odd rows
    otherwise) and output [2k+1] holds unchanged the rows of the other
    field, in every plane. Both calls fetch and free frame [k]. *)
Theorem double_rate_pair_keeps_every_source_row stale allocFrame d k :
  mode d = 0 -> 0 <= k -> 2 * k + 1 <= INT_MAX ->
  let src := node_frame (node d) k in
  let fmt := format (vi d) in
  let dst0 := allocFrame fmt (width (vi d)) (height (vi d)) src in
  let calls := [getFrameFilter k;
                newVideoFrame fmt (width (vi d)) (height (vi d));
                freeFrame k] in
  Forall (plane_ready src dst0) (seqZ 0 (numPlanes fmt)) ->
  exists fa fb,
    cudaDeintGetFrame stale allocFrame (2 * k) arAllFramesReady d
    = Ok (d, calls, Some fa)
    /\ cudaDeintGetFrame stale allocFrame (2 * k + 1) arAllFramesReady d
       = Ok (d, calls, Some fb)
    /\ forall p, 0 <= p < numPlanes fmt ->
       exists s ta tb,
         src !! Z.to_nat p = Some s /\ fa !! Z.to_nat p = Some ta
         /\ fb !! Z.to_nat p = Some tb
         /\ forall x y, 0 <= x < p_width s -> 0 <= y < p_height s ->
            let o := Z.to_nat (y * p_stride s + x) in
            if Bool.eqb (Z.even y) (tff d =? 1)
            then p_data ta !! o = p_data s !! o
            else p_data tb !! o = p_data s !! o.
Proof.
  intros Hm Hk Hmax src fmt dst0 calls Hready.
  assert (Hsa : srcN d (2 * k) = Ok k).
  { rewrite srcN_double by (try assumption; lia).
    f_equal. rewrite Z.mul_comm. apply Z.div_mul. lia. }
  assert (Hsb : srcN d (2 * k + 1) = Ok k).
  { rewrite srcN_double by (try assumption; lia).
    f_equal. rewrite Z.mul_comm, Z.add_comm, Z.div_add by lia. reflexivity. }
  assert (Hta : useTop d (2 * k) = (tff d =? 1)).
  { rewrite useTop_double by (try assumption; lia).
    rewrite Z.mul_comm, Z.mod_mul by lia. cbn [Z.eqb].
    now destruct (tff d =? 1). }
  assert (Htb : useTop d (2 * k + 1) = negb (tff d =? 1)).
  { rewrite useTop_double by (try assumption; lia).
    rewrite Z.mul_comm, Z.add_comm, Z.mod_add by lia.
    change (1 mod 2 =? 0) with false. now destruct (tff d =? 1). }
  destruct (cudaDeintGetFrame_ready stale allocFrame d (2 * k) k Hsa Hready)
    as (fa & Hrun_a & Hdone_a).
  destruct (cudaDeintGetFrame_ready stale allocFrame d (2 * k + 1) k Hsb Hready)
    as (fb & Hrun_b & Hdone_b).
  exists fa, fb. split; [exact Hrun_a|]. split; [exact Hrun_b|].
  intros p Hp.
  rewrite Forall_forall in Hdone_a, Hdone_b, Hready.
  assert (Hin : p ∈ seqZ 0 (numPlanes fmt)) by (apply elem_of_seqZ; lia).
  destruct (Hready p Hin) as (s & t & Hs & _ & Hok & _).
  destruct (Hdone_a p Hin) as (s1 & ta & Hs1 & Hfa & Hva).
  destruct (Hdone_b p Hin) as (s2 & tb & Hs2 & Hfb & Hvb).
  fold src in Hs1, Hs2.
  rewrite Hs in Hs1, Hs2. injection Hs1 as <-. injection Hs2 as <-.
  exists s, ta, tb. split; [exact Hs|]. split; [exact Hfa|].
  split; [exact Hfb|].
  intros x y Hx Hy o. subst o.
  rewrite (sample_lookup _ _ _ _ Hok y x Hy Hx).
  rewrite (Hva x y Hx Hy), (Hvb x y Hx Hy).
  unfold spec_pixel.
  rewrite !missing_b2z by lia. rewrite Hta, Htb.
  rewrite <- Z.negb_odd.
  destruct (tff d =? 1), (Z.odd y); reflexivity.
Qed.

Lemma double_rate_pair_keeps_every_source_row_witness :
  let d := mkData clip100 (mkVideoInfo (mkFormat 1) 48 1 4 4 200) 1 0 in
  let calls := [getFrameFilter 3; newVideoFrame (mkFormat 1) 4 4;
                freeFrame 3] in
  exists fa fb,
    cudaDeintGetFrame (fun _ => 0) zeroFrame (2 * 3) arAllFramesReady d
    = Ok (d, calls, Some fa)
    /\ cudaDeintGetFrame (fun _ => 0) zeroFrame (2 * 3 + 1) arAllFramesReady d
       = Ok (d, calls, Some fb)
    /\ forall p, 0 <= p < 1 ->
       exists s ta tb,
         node_frame clip100 3 !! Z.to_nat p = Some s
         /\ fa !! Z.to_nat p = Some ta /\ fb !! Z.to_nat p = Some tb
         /\ forall x y, 0 <= x < p_width s -> 0 <= y < p_height s ->
            let o := Z.to_nat (y * p_stride s + x) in
            if Bool.eqb (Z.even y) (1 =? 1)
            then p_data ta !! o = p_data s !! o
            else p_data tb !! o = p_data s !! o.
Proof.
  intros d calls.
  apply (double_rate_pair_keeps_every_source_row (fun _ => 0) zeroFrame d 3).
  - reflexivity.
  - lia.
  - rewrite INT_MAX_eq. lia.
  - solve_plane_ready.
Defined.

(** ** The constructor and the frame callback together *)

(** What a constructed filter publishes, by mode. *)
Lemma cudaDeintCreate_published in_ name vi' fm deps d :
  cudaDeintCreate in_ = Ok (outFilter name vi' fm deps d) ->
  vi d = vi'
  /\ ((mode d = 0
       /\ numFrames vi' = numFrames (node_vi (node d)) * 2
       /\ fpsNum vi' = fpsNum (node_vi (node d)) * 2
       /\ INT_MIN <= numFrames vi' <= INT_MAX)
      \/ (mode d <> 0 /\ vi' = node_vi (node d))).
Proof.
  intros Hrun.
  destruct (mapGetInt in_ "tff" 0) as [vt et] eqn:Ht.
  destruct (mapGetInt in_ "mode" 0) as [vm em] eqn:Hm.
  destruct (cudaDeintCreate_filter_inv _ _ _ _ _ _ _ _ _ _ Hrun Ht Hm)
    as (nd & Hc & ->).
  cbn [vi mode node]. split; [reflexivity|].
  rewrite (cudaDeintCreate_unfold in_ nd vt et vm em Hc Ht Hm) in Hrun.
  cbv zeta in Hrun.
  set (m := if negb (em =? 0) then 0 else to_int vm) in *.
  destruct (Z.eqb_spec m 0) as [E|E].
  - left. split; [exact E|].
    unfold int64_mul, int_mul, checked64, checked in Hrun.
    destruct (in_int64 (fpsNum (node_vi nd) * 2)); [|discriminate Hrun].
    destruct (in_int (numFrames (node_vi nd) * 2)) eqn:Hin;
      [|discriminate Hrun].
    cbn in Hrun. injection Hrun as _ <- _ _. cbn [numFrames fpsNum].
    split; [reflexivity|]. split; [reflexivity|]. now apply in_int_iff.
  - right. split; [exact E|]. cbn in Hrun. now injection Hrun as _ <- _ _.
Qed.

(** X12. The published frame count and the index mapping fit together:
    for a constructed filter, every output index below the published count
    maps to a source index below the upstream count, and every upstream
    frame is the source of some output index below the published count. *)
Theorem published_indices_match_upstream in_ name vi' fm deps d :
  cudaDeintCreate in_ = Ok (outFilter name vi' fm deps d) ->
  (forall n, 0 <= n < numFrames vi' ->
   exists k, srcN d n = Ok k /\ 0 <= k < numFrames (node_vi (node d)))
  /\ (forall k, 0 <= k < numFrames (node_vi (node d)) ->
      exists n, 0 <= n < numFrames vi' /\ srcN d n = Ok k).
Proof.
  intros Hrun.
  destruct (cudaDeintCreate_published _ _ _ _ _ _ Hrun)
    as [_ [(Hm & Hn & _ & Hmax)|[Hm ->]]].
  - split.
    + intros n Hlt. exists (n / 2). split.
      * apply srcN_double; [exact Hm|lia].
      * split; [apply Z.div_pos; lia|].
        apply Z.div_lt_upper_bound; lia.
    + intros k Hk. exists (2 * k). split; [lia|].
      rewrite srcN_double by (try assumption; lia).
      f_equal. rewrite Z.mul_comm. apply Z.div_mul. lia.
  - assert (Hs : forall n, srcN d n = Ok n).
    { intros n. unfold srcN. destruct (Z.eqb_spec (mode d) 0); [contradiction|].
      reflexivity. }
    split.
    + intros n Hlt. exists n. now rewrite Hs.
    + intros k Hk. exists k. now rewrite Hs.
Qed.

Lemma published_indices_match_upstream_witness :
  let d := mkData clip100 (mkVideoInfo (mkFormat 1) 48 1 4 4 200) 1 0 in
  (forall n, 0 <= n < 200 -> exists k, srcN d n = Ok k /\ 0 <= k < 100)
  /\ (forall k, 0 <= k < 100 -> exists n, 0 <= n < 200 /\ srcN d n = Ok k).
Proof.
  exact (published_indices_match_upstream args_clip_only "CudaDeinterlacer"
           (mkVideoInfo (mkFormat 1) 48 1 4 4 200) fmParallel
           [(clip100, rpGeneral)]
           (mkData clip100 (mkVideoInfo (mkFormat 1) 48 1 4 4 200) 1 0)
           eq_refl).
Defined.

Lemma to_int_add_mul z j : to_int (z + j * 2 ^ 32) = to_int z.
Proof.
  unfold to_int.
  replace (z + j * 2 ^ 32 + 2 ^ 31) with (z + 2 ^ 31 + j * 2 ^ 32) by lia.
  now rewrite Z.mod_add by lia.
Qed.

Lemma mapGetInt_insert (m : VSMap) key i :
  mapGetInt (<[key := [vInt i]]> m) key 0 = (i, 0).
Proof. unfold mapGetInt. now rewrite lookup_insert_eq. Qed.

Lemma mapGetInt_insert_ne (m : VSMap) key key' vs index :
  key <> key' ->
  mapGetInt (<[key := vs]> m) key' index = mapGetInt m key' index.
Proof. intros Hne. unfold mapGetInt. now rewrite lookup_insert_ne. Qed.

Lemma mapGetNode_insert_ne (m : VSMap) key key' vs index :
  key <> key' ->
  mapGetNode (<[key := vs]> m) key' index = mapGetNode m key' index.
Proof. intros Hne. unfold mapGetNode. now rewrite lookup_insert_ne. Qed.

(** X13. The constructor reads [mode] and [tff] through a conversion from
    [int64_t] to [int]: supplied values that differ by a multiple of 2^32
    construct the same filter. In particular a supplied [mode] of 2^32
    selects double-rate, like 0. *)
Theorem create_reads_integers_modulo_2_32 (m : VSMap) v j :
  cudaDeintCreate (<["mode" := [vInt (v + j * 2 ^ 32)]]> m)
  = cudaDeintCreate (<["mode" := [vInt v]]> m)
  /\ cudaDeintCreate (<["tff" := [vInt (v + j * 2 ^ 32)]]> m)
     = cudaDeintCreate (<["tff" := [vInt v]]> m).
Proof.
  split.
  - unfold cudaDeintCreate.
    rewrite !(mapGetNode_insert_ne _ "mode" "clip") by discriminate.
    rewrite !(mapGetInt_insert_ne _ "mode" "tff") by discriminate.
    rewrite !mapGetInt_insert.
    destruct (mapGetNode m "clip" 0) as [nd err].
    destruct (mapGetInt m "tff" 0) as [vt et].
    cbv beta iota. now rewrite to_int_add_mul.
  - unfold cudaDeintCreate.
    rewrite !(mapGetNode_insert_ne _ "tff" "clip") by discriminate.
    rewrite !(mapGetInt_insert_ne _ "tff" "mode") by discriminate.
    rewrite !mapGetInt_insert.
    destruct (mapGetNode m "clip" 0) as [nd err].
    destruct (mapGetInt m "mode" 0) as [vm em].
    cbv beta iota. now rewrite to_int_add_mul.
Qed.

Example create_mode_2_32_is_double_rate :
  cudaDeintCreate (<["mode" := [vInt (2 ^ 32)]]> args_clip_only)
  = cudaDeintCreate args_clip_only.
Proof. reflexivity. Qed.

(** ** Interior rows *)




(** ** The two modes *)


